(** * The chop solver of the logistic-regression benchmark (solvers/chop.py)

    A shallow embedding of the [Solver] class: its parameters, the attributes
    written by [set_objective] and [run], and the methods [skip],
    [set_objective], [run_stochastic], [run_full_batch], [run] and
    [get_result].

    Conventions.
    - Tensor entries are rationals ([Q]): the numeric kernels (the loss, the
      products, automatic differentiation, the optimizer updates) belong to
      torch and chop and are taken as parameters, see [Extern].
    - A tensor is a handle (storage location, shape, dtype, device) into a
      store of storages, so that [clone], [detach], [reshape] and the alias
      [self.beta = self.x0] keep the sharing they have in torch.
    - A method is a computation in a state-and-exception monad over the
      [world]: the solver object, the store and the trace of optimizer
      calls. *)

From Stdlib Require Import QArith String List Lia PeanoNat.
From stdpp Require Import base list.
Import ListNotations.
Local Open Scope string_scope.
Local Open Scope list_scope.
Local Open Scope nat_scope.

(* ===================================================================== *)
(** ** Data *)

Inductive device_t := cpu | cuda.

Inductive dtype_t := float16 | float32 | float64 | int32 | int64 | bool_dtype.

(** [batch_size] is an integer or a string (the class lists 32, 128, 200
    and 'full'). *)
Inductive batch_size_t :=
| BatchInt (n : nat)
| BatchStr (s : string).

Definition device_eqb (a b : device_t) : bool :=
  match a, b with
  | cpu, cpu | cuda, cuda => true
  | _, _ => false
  end.

(** Python's [self.batch_size == 'full']. *)
Definition batch_size_is (b : batch_size_t) (s : string) : bool :=
  match b with
  | BatchInt _ => false
  | BatchStr s' => String.eqb s' s
  end.

(** The solver's parameters, one name per key of [Solver.parameters]. *)
Record Params := mkParams {
  solver : string;
  line_search : bool;
  stochastic : bool;
  batch_size : batch_size_t;
  normalization : string;
  momentum : Q;
  device : device_t
}.

(** Storage locations and tensor handles. *)
Definition loc := nat.

Record tensor := mkTensor {
  storage : loc;
  shape : list nat;
  dtype : dtype_t;
  dev : device_t;
  requires_grad : bool
}.

(** The contents of a tensor as the external kernels see them. *)
Record tval := mkTval {
  values : list Q;
  tshape : list nat
}.

(** The arguments the harness passes: a design matrix with its
    [shape = (n_samples, n_features)], and a label vector.  The code reads
    [X.shape], [X.dtype] and [X.device]. *)
Record design_matrix := mkDesign {
  X_values : list Q;
  X_shape : nat * nat;
  X_dtype : dtype_t;
  X_device : device_t
}.

Record label_vector := mkLabels {
  y_values : list Q;
  y_dtype : dtype_t;
  y_device : device_t
}.

Inductive loss_module := BCEWithLogitsLoss_obj.

(** The solver object: its parameters and the attributes that the methods
    assign; an attribute that was never assigned is [None]. *)
Record Solver := mkSolver {
  params : Params;
  self_lmbd : option Q;
  self_X : option tensor;
  self_y : option tensor;
  self_x0 : option tensor;
  self_criterion : option loss_module;
  self_beta : option tensor
}.

(** A solver on which no method has run yet. *)
Definition new_solver (p : Params) : Solver :=
  mkSolver p None None None None None None.

(** What the code calls in torch and chop.  Nothing below depends on what
    these compute. *)
Class Extern := {
  (** [torch.cuda.is_available()] *)
  cuda_is_available : bool;
  (** [torch.nn.BCEWithLogitsLoss()(input, target)] *)
  bce_with_logits : tval -> tval -> Q;
  (** [data @ x] *)
  matmul : tval -> tval -> tval;
  (** [chop.utils.bmv(X, x)] *)
  bmv : tval -> tval -> tval;
  (** the batches of one pass over
      [DataLoader(TensorDataset(X, y), batch_size=batch_size)] *)
  loader_batches : tval -> tval -> batch_size_t -> list (tval * tval);
  (** the gradient that [backward] leaves on a leaf, for a scalar function
      of that leaf *)
  autograd : (list Q -> Q) -> list Q -> list Q;
  (** the update of [chop.stochastic.PGD.step]: from the learning rate,
      momentum, normalization, the parameter, its gradient and the momentum
      buffer to the new parameter and buffer *)
  pgd_update : Q -> Q -> string -> list Q -> option (list Q) -> list Q ->
               list Q * list Q;
  (** the update of one iteration of [chop.optim.minimize_pgd]: from the
      prox, the step rule, the iteration number, the point, the value and
      the gradient of the closure to the next point *)
  pgd_iterate : (list Q -> list Q) -> option string -> nat -> list Q -> Q ->
                list Q -> list Q
}.

(* ===================================================================== *)
(** ** [Solver.skip] *)

Section Skip.
Context `{Extern}.

Definition skip (self : Solver) (X : design_matrix) (y : label_vector)
    (lmbd : Q) : bool * option string :=
  let p := params self in
  if device_eqb (device p) cuda && negb cuda_is_available then
    (true, Some "CUDA is not available.")
  else if negb (stochastic p) && negb (batch_size_is (batch_size p) "full") then
    (true, Some "We only run stochastic=False if batch_size=='full'.")
  else if stochastic p then
    if batch_size_is (batch_size p) "full" then
      (true, Some "We do not perform full batch optimization with a stochastic optimizer.")
    else if line_search p then
      (true, Some "We do not perform line-search with a stochastic optimizer.")
    else (false, None)
  else
    if negb (String.eqb (normalization p) "none") then
      (true, Some "Normalizations are not used for full batch optimizers.")
    else if negb (Qeq_bool (momentum p) 0) then
      (true, Some "Momentum has no impact on full batch optimizers.")
    else (false, None).

(** The degenerate combinations, as the specification lists them. *)
Definition degenerate (p : Params) : Prop :=
  (device p = cuda /\ cuda_is_available = false) \/
  (stochastic p = false /\ batch_size p <> BatchStr "full") \/
  (stochastic p = true /\ batch_size p = BatchStr "full") \/
  (stochastic p = true /\ line_search p = true) \/
  (stochastic p = false /\ normalization p <> "none") \/
  (stochastic p = false /\ ~ (momentum p == 0)%Q).

(** The six tests of [skip], as one boolean. *)
Definition degenerate_b (p : Params) : bool :=
  device_eqb (device p) cuda && negb cuda_is_available
  || negb (stochastic p) && negb (batch_size_is (batch_size p) "full")
  || stochastic p && batch_size_is (batch_size p) "full"
  || stochastic p && line_search p
  || negb (stochastic p) && negb (String.eqb (normalization p) "none")
  || negb (stochastic p) && negb (Qeq_bool (momentum p) 0).

End Skip.

(* ===================================================================== *)
(** ** The state-and-exception monad of the methods *)

Inductive exn :=
| NotImplementedError
| NameError (name : string)
| AttributeError (attr : string)
| TypeError
| ZeroDivisionError
| AssertionError
| ValueError
| RuntimeError
| IndexError.

(** [OutOfFuel] is not a Python exception: it marks a loop that was cut
    off by the bound on the number of its iterations. *)
Inductive outcome (A : Type) :=
| Ok (a : A)
| Raise (e : exn)
| OutOfFuel.
Arguments Ok {A} a.
Arguments Raise {A} e.
Arguments OutOfFuel {A}.

(** The calls into the optimizers, in the order they are made. *)
Inductive event :=
| PGD_created
| PGD_step_called
| minimize_pgd_called.

(** An entry of [warnings.filters]: action, message, category, module and
    line number. *)
Record warning_filter := mkFilter {
  wf_action : string;
  wf_message : option string;
  wf_category : string;
  wf_module : option string;
  wf_lineno : nat
}.

Record world := mkWorld {
  self : Solver;
  heap : list (list Q);
  trace : list event;
  (** [warnings.filters], the filters of the process *)
  filters : list warning_filter
}.

Definition M (A : Type) : Type := world -> outcome A * world.

#[global] Instance M_ret : MRet M := fun A a w => (Ok a, w).

#[global] Instance M_bind : MBind M := fun A B f m w =>
  match m w with
  | (Ok a, w') => f a w'
  | (Raise e, w') => (Raise e, w')
  | (OutOfFuel, w') => (OutOfFuel, w')
  end.

Definition raise {A} (e : exn) : M A := fun w => (Raise e, w).
Definition out_of_fuel {A} : M A := fun w => (OutOfFuel, w).

Definition get_self : M Solver := fun w => (Ok (self w), w).
Definition put_self (s : Solver) : M unit :=
  fun w => (Ok tt, mkWorld s (heap w) (trace w) (filters w)).
Definition emit (e : event) : M unit :=
  fun w => (Ok tt, mkWorld (self w) (heap w) (trace w ++ [e]) (filters w)).

(** The store: a new storage goes at the end, so the locations in use keep
    their contents. *)
Definition alloc (v : list Q) : M loc :=
  fun w => (Ok (length (heap w)),
            mkWorld (self w) (heap w ++ [v]) (trace w) (filters w)).
Definition load (l : loc) : M (list Q) :=
  fun w => (Ok (default [] (heap w !! l)), w).
Definition store (l : loc) (v : list Q) : M unit :=
  fun w => (Ok tt, mkWorld (self w) (<[l := v]> (heap w)) (trace w)
                           (filters w)).

(** [warnings.filterwarnings(action, category=category)]: the entry is
    taken out of the filters where it stands and put in front. *)
Definition filter_eqb (a b : warning_filter) : bool :=
  String.eqb (wf_action a) (wf_action b)
  && match wf_message a, wf_message b with
     | Some m, Some m' => String.eqb m m'
     | None, None => true
     | _, _ => false
     end
  && String.eqb (wf_category a) (wf_category b)
  && match wf_module a, wf_module b with
     | Some m, Some m' => String.eqb m m'
     | None, None => true
     | _, _ => false
     end
  && Nat.eqb (wf_lineno a) (wf_lineno b).

Fixpoint remove_first (item : warning_filter) (fs : list warning_filter)
    : list warning_filter :=
  match fs with
  | [] => []
  | f :: rest => if filter_eqb f item then rest else f :: remove_first item rest
  end.

Definition filterwarnings (action category : string) : M unit :=
  fun w =>
    let item := mkFilter action None category None 0 in
    (Ok tt, mkWorld (self w) (heap w) (trace w)
                    (item :: remove_first item (filters w))).

(** Reading an attribute that was never assigned raises [AttributeError]. *)
Definition getattr {A} (name : string) (field : Solver -> option A) : M A :=
  s ← get_self;
  match field s with
  | Some v => mret v
  | None => raise (AttributeError name)
  end.

Definition getparam {A} (field : Params -> A) : M A :=
  s ← get_self; mret (field (params s)).

Definition setattr_lmbd (v : Q) : M unit :=
  s ← get_self;
  put_self (mkSolver (params s) (Some v) (self_X s) (self_y s) (self_x0 s)
                     (self_criterion s) (self_beta s)).
Definition setattr_X (v : tensor) : M unit :=
  s ← get_self;
  put_self (mkSolver (params s) (self_lmbd s) (Some v) (self_y s) (self_x0 s)
                     (self_criterion s) (self_beta s)).
Definition setattr_y (v : tensor) : M unit :=
  s ← get_self;
  put_self (mkSolver (params s) (self_lmbd s) (self_X s) (Some v) (self_x0 s)
                     (self_criterion s) (self_beta s)).
Definition setattr_x0 (v : tensor) : M unit :=
  s ← get_self;
  put_self (mkSolver (params s) (self_lmbd s) (self_X s) (self_y s) (Some v)
                     (self_criterion s) (self_beta s)).
Definition setattr_criterion (v : loss_module) : M unit :=
  s ← get_self;
  put_self (mkSolver (params s) (self_lmbd s) (self_X s) (self_y s) (self_x0 s)
                     (Some v) (self_beta s)).
Definition setattr_beta (v : tensor) : M unit :=
  s ← get_self;
  put_self (mkSolver (params s) (self_lmbd s) (self_X s) (self_y s) (self_x0 s)
                     (self_criterion s) (Some v)).

(* ===================================================================== *)
(** ** Tensors *)

Definition numel (sh : list nat) : nat := fold_right Nat.mul 1 sh.

(** [torch.tensor(data, dtype=..)]: a copy of the data in a new storage. *)
Definition torch_tensor (v : list Q) (sh : list nat) (dt : dtype_t)
    (d : device_t) : M tensor :=
  l ← alloc v; mret (mkTensor l sh dt d false).

(** [torch.zeros(n, dtype=.., device=..)] *)
Definition torch_zeros (n : nat) (dt : dtype_t) (d : device_t) : M tensor :=
  l ← alloc (repeat 0%Q n); mret (mkTensor l [n] dt d false).

(** [t.to(device)] and [t.cpu()]: the tensor itself when it is already on
    the device, a copy on the device otherwise. *)
Definition tensor_to (t : tensor) (d : device_t) : M tensor :=
  if device_eqb (dev t) d then mret t
  else
    v ← load (storage t);
    l ← alloc v;
    mret (mkTensor l (shape t) (dtype t) d (requires_grad t)).

(** [t.clone()]: a new storage with the same contents. *)
Definition clone (t : tensor) : M tensor :=
  v ← load (storage t);
  l ← alloc v;
  mret (mkTensor l (shape t) (dtype t) (dev t) (requires_grad t)).

(** [t.detach()]: the same storage, cut from the graph. *)
Definition detach (t : tensor) : tensor :=
  mkTensor (storage t) (shape t) (dtype t) (dev t) false.

(** [t.flatten()] and [t.reshape(1, -1)] of a contiguous tensor: views of
    the same storage. *)
Definition flatten (t : tensor) : tensor :=
  mkTensor (storage t) [numel (shape t)] (dtype t) (dev t) (requires_grad t).
Definition reshape_row (t : tensor) : tensor :=
  mkTensor (storage t) [1; numel (shape t)] (dtype t) (dev t) (requires_grad t).

Definition requires_grad_ (t : tensor) (b : bool) : tensor :=
  mkTensor (storage t) (shape t) (dtype t) (dev t) b.

Definition is_floating (dt : dtype_t) : bool :=
  match dt with
  | float16 | float32 | float64 => true
  | _ => false
  end.

(** [t.requires_grad_(b)]: only a floating tensor can require
    gradients. *)
Definition set_requires_grad (t : tensor) (b : bool) : M tensor :=
  if b && negb (is_floating (dtype t)) then raise RuntimeError
  else mret (requires_grad_ t b).

(** [t.size(0)] *)
Definition size0 (t : tensor) : M nat :=
  match shape t !! 0 with
  | Some n => mret n
  | None => raise IndexError
  end.

(** [TensorDataset(a, b)] asserts that the tensors have as many rows. *)
Definition TensorDataset (a b : tensor) : M (tensor * tensor) :=
  na ← size0 a;
  nb ← size0 b;
  if Nat.eqb na nb then mret (a, b) else raise AssertionError.

(** [DataLoader(dataset, batch_size=bs)] makes a batch sampler, which
    wants a positive integer. *)
Definition DataLoader (dataset : tensor * tensor) (bs : batch_size_t)
    : M (tensor * tensor * batch_size_t) :=
  match bs with
  | BatchInt (S _) => mret (dataset, bs)
  | _ => raise ValueError
  end.

Definition tensor_value (t : tensor) : M tval :=
  v ← load (storage t); mret (mkTval v (shape t)).

(* ===================================================================== *)
(** ** Names

    A name that a function neither binds nor receives is looked up in the
    module's globals (and then the builtins, which bind neither [X] nor
    [y]); a name bound nowhere raises [NameError].  The module binds what
    it imports and the class it defines. *)

Inductive pyobj :=
| PyModule (name : string)
| PyClass (name : string)
| PyFunction (name : string)
| PyInstance (cls : string)
| PyTensor (t : tensor).

Definition module_globals : list (string * pyobj) :=
  [ ("warnings", PyModule "warnings");
    ("os", PyModule "os");
    ("BaseSolver", PyClass "BaseSolver");
    ("safe_import_context", PyClass "safe_import_context");
    ("TensorDataset", PyClass "TensorDataset");
    ("import_ctx", PyInstance "safe_import_context");
    ("torch", PyModule "torch");
    ("DataLoader", PyClass "DataLoader");
    ("chop", PyModule "chop");
    ("Solver", PyClass "Solver") ].

Fixpoint lookup_name (name : string) (env : list (string * pyobj))
    : option pyobj :=
  match env with
  | [] => None
  | (k, v) :: rest => if String.eqb k name then Some v else lookup_name name rest
  end.

Definition load_global (name : string) : M pyobj :=
  match lookup_name name module_globals with
  | Some o => mret o
  | None => raise (NameError name)
  end.

(** [o.size(dim)] *)
Definition size_of (o : pyobj) (dim : nat) : M nat :=
  match o with
  | PyTensor t =>
      match shape t !! dim with
      | Some n => mret n
      | None => raise TypeError
      end
  | _ => raise (AttributeError "size")
  end.

(** An object handed to a torch or chop kernel must be a tensor. *)
Definition as_tensor (o : pyobj) : M tensor :=
  match o with
  | PyTensor t => mret t
  | _ => raise TypeError
  end.

(** [a / n] for a float [a] and an integer [n] *)
Definition divide (a : Q) (n : nat) : M Q :=
  if Nat.eqb n 0 then raise ZeroDivisionError
  else mret (a / inject_Z (Z.of_nat n))%Q.

(* ===================================================================== *)
(** ** The methods that set up the problem, run it and fetch the result *)

Section Methods.
Context `{Extern}.

(** [y > 0], elementwise *)
Definition gt_zero (v : Q) : bool := negb (Qle_bool v 0).

(** The entries of [torch.tensor(y > 0, dtype=torch.float64)]. *)
Definition bool_to_float (b : bool) : Q := if b then 1%Q else 0%Q.

Definition set_objective (X : design_matrix) (y : label_vector) (lmbd : Q)
    : M unit :=
  setattr_lmbd lmbd;;
  device ← getparam device;
  Xt ← torch_tensor (X_values X) [fst (X_shape X); snd (X_shape X)]
                    (X_dtype X) (X_device X);
  Xd ← tensor_to Xt device;
  setattr_X Xd;;
  yt ← torch_tensor (map (fun v => bool_to_float (gt_zero v)) (y_values y))
                    [length (y_values y)] float64 (y_device y);
  yd ← tensor_to yt device;
  setattr_y yd;;
  let '(_, n_features) := X_shape X in
  x0 ← torch_zeros n_features (X_dtype X) (X_device X);
  setattr_x0 x0;;
  setattr_criterion BCEWithLogitsLoss_obj.

(** *** The stochastic path *)

(** The optimizer object [chop.stochastic.PGD([x], lr, momentum,
    normalization)], with the gradient of its parameter and its momentum
    buffer. *)
Record optimizer := mkOptimizer {
  opt_param : tensor;
  opt_lr : Q;
  opt_momentum : Q;
  opt_normalization : string;
  opt_grad : option (list Q);
  opt_buf : list Q
}.

(** The constructor is taken to accept its arguments. *)
Definition PGD (x : tensor) (lr mom : Q) (norm : string) : M optimizer :=
  emit PGD_created;;
  mret (mkOptimizer x lr mom norm None []).

Definition zero_grad (o : optimizer) : optimizer :=
  mkOptimizer (opt_param o) (opt_lr o) (opt_momentum o) (opt_normalization o)
              None (opt_buf o).

Definition vec_add (a b : list Q) : list Q :=
  map (fun ab => (fst ab + snd ab)%Q) (combine a b).

(** [loss.backward()]: the gradient of the loss at the parameter is added
    to the parameter's gradient. *)
Definition backward (loss : list Q -> Q) (xv : list Q) (o : optimizer)
    : optimizer :=
  let g := autograd loss xv in
  mkOptimizer (opt_param o) (opt_lr o) (opt_momentum o) (opt_normalization o)
              (Some (match opt_grad o with
                     | None => g
                     | Some g0 => vec_add g0 g
                     end))
              (opt_buf o).

(** [optimizer.step()]: the parameter is updated in place. *)
Definition PGD_step (o : optimizer) : M optimizer :=
  emit PGD_step_called;;
  xv ← load (storage (opt_param o));
  let '(xv', buf') := pgd_update (opt_lr o) (opt_momentum o)
                        (opt_normalization o) xv (opt_grad o) (opt_buf o) in
  store (storage (opt_param o)) xv';;
  mret (mkOptimizer (opt_param o) (opt_lr o) (opt_momentum o)
                    (opt_normalization o) (opt_grad o) buf').

(** [(x ** 2).sum()] *)
Definition sum_squares (xv : list Q) : Q :=
  fold_right Qplus 0%Q (map (fun v => (v * v)%Q) xv).

(** The loss of one step as a function of the parameter:
    [self.criterion(data @ x, target) + .5 * alpha * (x ** 2).sum()]. *)
Definition step_loss (data target : tval) (alpha : Q) (sh : list nat)
    (xv : list Q) : Q :=
  (bce_with_logits (matmul data (mkTval xv sh)) target
   + (1 # 2) * alpha * sum_squares xv)%Q.

(** The body of [for data, target in loader]. *)
Definition loop_body (x : tensor) (alpha : Q) (b : tval * tval)
    (st : nat * optimizer) : M (nat * optimizer) :=
  let '(data, target) := b in
  let '(counter, opt) := st in
  let counter := counter + 1 in
  let opt := zero_grad opt in
  xv ← load (storage x);
  _ ← getattr "criterion" self_criterion;
  let opt := backward (step_loss data target alpha (shape x)) xv opt in
  opt ← PGD_step opt;
  mret (counter, opt).

Fixpoint for_loader (x : tensor) (alpha : Q) (batches : list (tval * tval))
    (st : nat * optimizer) : M (nat * optimizer) :=
  match batches with
  | [] => mret st
  | b :: rest =>
      st' ← loop_body x alpha b st;
      for_loader x alpha rest st'
  end.

(** One pass over the loader reads the dataset's tensors. *)
Definition iter_loader (dataset : tensor * tensor) (bs : batch_size_t)
    : M (list (tval * tval)) :=
  Xv ← tensor_value (fst dataset);
  yv ← tensor_value (snd dataset);
  mret (loader_batches Xv yv bs).

(** [while counter < n_iter: for data, target in loader: ...]; [fuel]
    bounds the number of passes. *)
Fixpoint optimization_loop (fuel n_iter : nat) (dataset : tensor * tensor)
    (bs : batch_size_t) (x : tensor) (alpha : Q) (st : nat * optimizer)
    : M (nat * optimizer) :=
  if fst st <? n_iter then
    match fuel with
    | 0 => out_of_fuel
    | S fuel' =>
        batches ← iter_loader dataset bs;
        st' ← for_loader x alpha batches st;
        optimization_loop fuel' n_iter dataset bs x alpha st'
    end
  else mret st.

(** Lines 72 to 84 of [run_stochastic]: the dataset and its loader, the
    optimization variable and the optimizer. *)
Definition stochastic_prepare
    : M (tensor * tensor * batch_size_t * tensor * optimizer) :=
  (* prepare dataset *)
  Xt ← getattr "X" self_X;
  yt ← getattr "y" self_y;
  dataset ← TensorDataset Xt yt;
  bs ← getparam batch_size;
  loader ← DataLoader dataset bs;
  (* prepare opt variable *)
  x0 ← getattr "x0" self_x0;
  xc ← clone x0;
  let x := flatten (detach xc) in
  x ← set_requires_grad x true;
  slv ← getparam solver;
  optimizer ←
    (if String.eqb slv "pgd" then
       mom ← getparam momentum;
       norm ← getparam normalization;
       PGD x (1 # 20) mom norm
     else raise NotImplementedError);
  mret (loader, x, optimizer).

(** Lines 91 to 103: the loop, and the result. *)
Definition stochastic_optimize (fuel n_iter : nat)
    (loader : tensor * tensor * batch_size_t) (x : tensor)
    (optimizer : optimizer) (counter : nat) (alpha : Q) : M unit :=
  st ← optimization_loop fuel n_iter (fst loader) (snd loader) x alpha
                         (counter, optimizer);
  beta ← clone (detach x);
  setattr_beta beta.

Definition run_stochastic (fuel n_iter : nat) : M unit :=
  '(loader, x, optimizer) ← stochastic_prepare;
  (* Optimization loop *)
  let counter := 0 in
  lmbd ← getattr "lmbd" self_lmbd;
  Xg ← load_global "X";
  n ← size_of Xg 0;
  alpha ← divide lmbd n;
  stochastic_optimize fuel n_iter loader x optimizer counter alpha.

(** The stochastic run with the value of [alpha] supplied: lines 72 to
    84, then lines 87 and 91 to 103. *)
Definition run_stochastic_given (fuel n_iter : nat) (alpha : Q) : M unit :=
  '(loader, x, optimizer) ← stochastic_prepare;
  let counter := 0 in
  stochastic_optimize fuel n_iter loader x optimizer counter alpha.

(** *** The full-batch path *)

Definition get_world : M world := fun w => (Ok w, w).

(** The function [logloss] that [run_full_batch] defines.  It binds [x]
    and [alpha], [out], [loss], [reg]; [X] and [y] are bound neither by it
    nor by [run_full_batch]. *)
Definition logloss (x : tval) : M Q :=
  lmbd ← getattr "lmbd" self_lmbd;
  Xg ← load_global "X";
  n ← size_of Xg 0;
  alpha ← divide lmbd n;
  Xg ← load_global "X";
  Xt ← as_tensor Xg;
  Xv ← tensor_value Xt;
  let out := bmv Xv x in
  _ ← getattr "criterion" self_criterion;
  yg ← load_global "y";
  yt ← as_tensor yg;
  yv ← tensor_value yt;
  let loss := bce_with_logits out yv in
  let reg := ((1 # 2) * alpha * sum_squares (values x))%Q in
  mret (loss + reg)%Q.

(** The decorator [chop.utils.closure]: the wrapped function returns the
    value together with the gradient at the point. *)
Definition closure (f : tval -> M Q) (x : tval) : M (Q * list Q) :=
  w ← get_world;
  val ← f x;
  let f_at := fun xv => match fst (f (mkTval xv (tshape x)) w) with
                        | Ok v => v
                        | _ => 0%Q
                        end in
  mret (val, autograd f_at (values x)).

(** Modelled from the spec: [chop.optim.minimize_pgd] is not part of this
    repository.  It runs [max_iter] iterations of projected gradient from a
    copy of [x0], each of which evaluates the closure at the current point;
    the arithmetic of an iteration is [pgd_iterate]. *)
Fixpoint pgd_iterations (f : tval -> M (Q * list Q))
    (prox : list Q -> list Q) (step : option string) (sh : list nat)
    (k it : nat) (xv : list Q) : M (list Q) :=
  match k with
  | 0 => mret xv
  | S k' =>
      '(fval, grad) ← f (mkTval xv sh);
      pgd_iterations f prox step sh k' (S it)
                     (pgd_iterate prox step it xv fval grad)
  end.

Definition minimize_pgd (f : tval -> M (Q * list Q)) (x0 : tensor)
    (prox : list Q -> list Q) (step : option string) (max_iter : nat)
    : M tensor :=
  emit minimize_pgd_called;;
  xv ← load (storage x0);
  xv' ← pgd_iterations f prox step (shape x0) max_iter 0 xv;
  l ← alloc xv';
  mret (mkTensor l (shape x0) (dtype x0) (dev x0) false).

Definition run_full_batch (n_iter : nat) : M unit :=
  x0 ← getattr "x0" self_x0;
  let x0 := reshape_row x0 in
  let logloss := closure logloss in
  slv ← getparam solver;
  result_x ←
    (if String.eqb slv "pgd" then
       ls ← getparam line_search;
       let step := if ls : bool then Some "backtracking" else None in
       minimize_pgd logloss x0 (fun v => v) step n_iter
     else raise NotImplementedError);
  setattr_beta result_x.

(** *** [run] and [get_result] *)

Definition run (fuel n_iter : nat) : M unit :=
  if n_iter =? 0 then
    x0 ← getattr "x0" self_x0;
    setattr_beta x0
  else
    filterwarnings "ignore" "RuntimeWarning";;
    s ← getparam stochastic;
    if s : bool then run_stochastic fuel n_iter else run_full_batch n_iter.

(** [self.beta.detach().cpu().numpy().flatten()]: the array shares the
    memory of the host tensor and [flatten] copies it. *)
Definition get_result : M (list Q) :=
  beta ← getattr "beta" self_beta;
  t ← tensor_to (detach beta) cpu;
  load (storage t).

(** What the harness does with a list of budgets: one [run] per budget, on
    the same solver object, whatever the outcome of the earlier ones. *)
Fixpoint run_each (fuel : nat) (budgets : list nat) (w : world) : world :=
  match budgets with
  | [] => w
  | n :: rest => run_each fuel rest (snd (run fuel n w))
  end.

(** The entries of a tensor in a world. *)
Definition contents (w : world) (t : tensor) : list Q :=
  default [] (heap w !! storage t).

(** The world after [set_objective], whatever it was before. *)
Definition after_setup (w : world) (X : design_matrix) (y : label_vector)
    (lmbd : Q) : world :=
  snd (set_objective X y lmbd w).

(** The number of [optimizer.step()] calls recorded in a trace. *)
Definition is_step (e : event) : bool :=
  match e with
  | PGD_step_called => true
  | _ => false
  end.

Definition count_steps (t : list event) : nat :=
  length (List.filter is_step t).

End Methods.

(* ===================================================================== *)
(** ** An instance of the external kernels, to evaluate the methods

    The loader cuts the dataset into consecutive batches of [batch_size]
    samples, the last one possibly shorter.  The numeric kernels are
    stand-ins: only the examples evaluate them. *)

Fixpoint chunk {A} (fuel k : nat) (l : list A) : list (list A) :=
  match fuel, l with
  | 0, _ | _, [] => []
  | S fuel', _ => take k l :: chunk fuel' k (drop k l)
  end.

Definition partition_batches (Xv yv : tval) (bs : batch_size_t)
    : list (tval * tval) :=
  match bs with
  | BatchInt (S b) =>
      let k := S b in
      let d := nth 1 (tshape Xv) 1 in
      let rows := chunk (length (values Xv)) (k * d) (values Xv) in
      let labels := chunk (length (values yv)) k (values yv) in
      map (fun rl => (mkTval (fst rl) [length (snd rl); d],
                      mkTval (snd rl) [length (snd rl)]))
          (combine rows labels)
  | _ => []
  end.

Definition reference (cuda_available : bool) : Extern := {|
  cuda_is_available := cuda_available;
  bce_with_logits := fun _ _ => 0%Q;
  matmul := fun a _ => mkTval [] [];
  bmv := fun a _ => mkTval [] [];
  loader_batches := partition_batches;
  autograd := fun _ xv => map (fun _ => 1%Q) xv;
  pgd_update := fun lr _ _ xv g buf =>
    (match g with
     | Some g => map (fun ab => (fst ab - lr * snd ab)%Q) (combine xv g)
     | None => xv
     end, buf);
  pgd_iterate := fun prox _ _ xv _ g =>
    prox (map (fun ab => (fst ab - snd ab)%Q) (combine xv g))
|}.

Definition example_params (slv : string) (stoch : bool) (bs : batch_size_t)
    (d : device_t) : Params :=
  mkParams slv false stoch bs "none" 0%Q d.

(** Two samples with two features. *)
Definition example_X (d : device_t) (dt : dtype_t) : design_matrix :=
  mkDesign [1%Q; 2%Q; 3%Q; 4%Q] (2, 2) dt d.

Definition example_y : label_vector :=
  mkLabels [(-1)%Q; 1%Q] int64 cpu.

(** The world in which the harness finds a new solver. *)
Definition fresh_world (p : Params) : world :=
  mkWorld (new_solver p) [] [] [].

(** The example problem, set up on a new solver that runs the stochastic
    path on the host with batches of one sample. *)
Definition example_world : world :=
  after_setup (fresh_world (example_params "pgd" true (BatchInt 1) cpu))
              (example_X cpu float64) example_y 1%Q.

(** The state of [run_stochastic] on the example at the line before its
    loop: the dataset is the stored matrix and labels, and [x] is the clone
    of [x0], in a storage of its own. *)
Definition example_dataset : tensor * tensor :=
  (mkTensor 0 [2; 2] float64 cpu false, mkTensor 1 [2] float64 cpu false).

Definition example_x : tensor := mkTensor 3 [2] float64 cpu true.

Definition example_optimizer : optimizer :=
  mkOptimizer example_x (1 # 20) 0%Q "none" None [].

(** [lmbd / n_samples] on the example *)
Definition example_alpha : Q := (1 # 2)%Q.

Definition example_loop_world : world :=
  snd (run_stochastic (H := reference false) 1 1 example_world).

(** The loop on the example, with a budget of one step. *)
Definition example_loop_result : outcome (nat * optimizer) * world :=
  optimization_loop (H := reference false) 1 1 example_dataset (BatchInt 1)
    example_x example_alpha (0, example_optimizer) example_loop_world.

(** A problem given on the host to a solver that is to run on cuda, on a
    machine that has it. *)
Definition cuda_example_world : world :=
  after_setup (fresh_world (example_params "pgd" false (BatchStr "full") cuda))
              (example_X cpu float64) example_y 1%Q.

(** The example problem on a solver of another name. *)
Definition sgd_example_world : world :=
  after_setup (fresh_world (example_params "sgd" true (BatchInt 1) cpu))
              (example_X cpu float64) example_y 1%Q.

(* ===================================================================== *)
(** ** The parameter grid of the class *)

(** [Solver.parameters]: the values of each parameter, in the order of the
    dictionary.  The harness runs the solver on every combination. *)
Definition parameters_solver : list string := ["pgd"].
Definition parameters_line_search : list bool := [false; true].
Definition parameters_stochastic : list bool := [false; true].
Definition parameters_batch_size : list batch_size_t :=
  [BatchInt 32; BatchInt 128; BatchInt 200; BatchStr "full"].
Definition parameters_normalization : list string :=
  ["none"; "L2"; "Linf"; "sign"].
Definition parameters_momentum : list Q := [0%Q; (9 # 10)%Q].
Definition parameters_device : list device_t := [cuda; cpu].

Definition parameters_grid : list Params :=
  flat_map (fun slv =>
  flat_map (fun ls =>
  flat_map (fun st =>
  flat_map (fun bs =>
  flat_map (fun nm =>
  flat_map (fun mo =>
  List.map (fun dv => mkParams slv ls st bs nm mo dv) parameters_device)
  parameters_momentum) parameters_normalization) parameters_batch_size)
  parameters_stochastic) parameters_line_search) parameters_solver.

(** The configurations of a list that [skip] lets through. *)
Definition not_skipped `{Extern} (ps : list Params) (X : design_matrix)
    (y : label_vector) (lmbd : Q) : list Params :=
  List.filter (fun p => negb (fst (skip (new_solver p) X y lmbd))) ps.

(** A dataset without samples, set up on a new solver. *)
Definition empty_world : world :=
  after_setup (fresh_world (example_params "pgd" true (BatchInt 1) cpu))
              (mkDesign [] (0, 2) float64 cpu) (mkLabels [] int64 cpu) 1%Q.

Definition empty_dataset : tensor * tensor :=
  (mkTensor 0 [0; 2] float64 cpu false, mkTensor 1 [0] float64 cpu false).

(** [w'] is [w] but for the trace and the contents of the storage [l0]. *)
Record frame (l0 : loc) (w w' : world) : Prop := mkFrame {
  frame_self : self w' = self w;
  frame_length : length (heap w') = length (heap w);
  frame_heap : forall l, l <> l0 -> heap w' !! l = heap w !! l
}.

(* ===================================================================== *)
(** ** Invariants of the runs *)

(** The problem is set up: the attributes that the runs read are assigned,
    and the storage of [x0] holds [zs]. *)
Record ready (w : world) (x0t : tensor) (zs : list Q) : Prop := mkReady {
  ready_X : is_Some (self_X (self w));
  ready_y : is_Some (self_y (self w));
  ready_lmbd : is_Some (self_lmbd (self w));
  ready_x0 : self_x0 (self w) = Some x0t;
  ready_store : heap w !! storage x0t = Some zs
}.

(** [w'] has the problem of [w], and its store is the store of [w] with
    more storages after it. *)
Record extends (w w' : world) : Prop := mkExtends {
  ext_params : params (self w') = params (self w);
  ext_lmbd : self_lmbd (self w') = self_lmbd (self w);
  ext_X : self_X (self w') = self_X (self w);
  ext_y : self_y (self w') = self_y (self w);
  ext_x0 : self_x0 (self w') = self_x0 (self w);
  ext_criterion : self_criterion (self w') = self_criterion (self w);
  ext_heap : exists more, heap w' = heap w ++ more
}.

(** The exception of a run with a positive budget that gets as far as the
    test of the solver's name. *)
Definition run_exception (p : Params) : exn :=
  if String.eqb (solver p) "pgd" then NameError "X" else NotImplementedError.

(** [run(n_iter)] followed by [get_result()]. *)
Definition run_then_get_result `{Extern} (fuel n_iter : nat) : M (list Q) :=
  run fuel n_iter;; get_result.

(** The batches of a pass over the loader in a world. *)
Definition dataset_batches `{Extern} (w : world) (dataset : tensor * tensor)
    (bs : batch_size_t) : list (tval * tval) :=
  loader_batches (mkTval (contents w (fst dataset)) (shape (fst dataset)))
                 (mkTval (contents w (snd dataset)) (shape (snd dataset))) bs.

(** What lines 72 to 84 of [run_stochastic] do, read off the solver: the
    exception at which they stop, or [None] when they go through. *)
Definition prepare_result (s : Solver) : option exn :=
  match self_X s with
  | None => Some (AttributeError "X")
  | Some Xt =>
  match self_y s with
  | None => Some (AttributeError "y")
  | Some yt =>
  match shape Xt !! 0 with
  | None => Some IndexError
  | Some na =>
  match shape yt !! 0 with
  | None => Some IndexError
  | Some nb =>
  if negb (Nat.eqb na nb) then Some AssertionError
  else
  match batch_size (params s) with
  | BatchInt (S _) =>
      match self_x0 s with
      | None => Some (AttributeError "x0")
      | Some x0t =>
          if negb (is_floating (dtype x0t)) then Some RuntimeError
          else if String.eqb (solver (params s)) "pgd" then None
          else Some NotImplementedError
      end
  | _ => Some ValueError
  end end end end end.

(** The exception at which [run_stochastic] stops. *)
Definition stochastic_exception (s : Solver) : exn :=
  match prepare_result s with
  | Some e => e
  | None =>
      match self_lmbd s with
      | None => AttributeError "lmbd"
      | Some _ => NameError "X"
      end
  end.

(** The exception at which [run_full_batch] stops for a positive
    budget. *)
Definition full_batch_exception (s : Solver) : exn :=
  match self_x0 s with
  | None => AttributeError "x0"
  | Some _ =>
      if String.eqb (solver (params s)) "pgd" then
        match self_lmbd s with
        | None => AttributeError "lmbd"
        | Some _ => NameError "X"
        end
      else NotImplementedError
  end.

(** The exception at which [run] stops for a positive budget. *)
Definition run_exn (s : Solver) : exn :=
  if stochastic (params s) then stochastic_exception s
  else full_batch_exception s.

(** The inputs and the batch size with which the dataset, the loader and
    the optimization variable of the stochastic path can be built: as many
    labels as rows, a positive integer batch size, a floating matrix. *)
Definition stochastic_inputs_ok (p : Params) (X : design_matrix)
    (y : label_vector) : Prop :=
  fst (X_shape X) = length (y_values y) /\
  (exists b, batch_size p = BatchInt (S b)) /\
  is_floating (X_dtype X) = true.

(** The filters after [warnings.filterwarnings('ignore',
    category=RuntimeWarning)]. *)
Definition ignore_runtime_warnings (fs : list warning_filter)
    : list warning_filter :=
  mkFilter "ignore" None "RuntimeWarning" None 0
  :: remove_first (mkFilter "ignore" None "RuntimeWarning" None 0) fs.

(** *** The loop on values

    The loop of the stochastic path as a function of the entries of [x]
    and of the momentum buffer, for the batches of a pass. *)
Definition pure_step `{Extern} (alpha : Q) (sh : list nat) (lr mom : Q)
    (norm : string) (b : tval * tval) (st : nat * list Q * list Q)
    : nat * list Q * list Q :=
  let '(c, xv, buf) := st in
  let g := autograd (step_loss (fst b) (snd b) alpha sh) xv in
  let '(xv', buf') := pgd_update lr mom norm xv (Some g) buf in
  (c + 1, xv', buf').

Fixpoint pure_pass `{Extern} (alpha : Q) (sh : list nat) (lr mom : Q)
    (norm : string) (batches : list (tval * tval))
    (st : nat * list Q * list Q) : nat * list Q * list Q :=
  match batches with
  | [] => st
  | b :: rest =>
      pure_pass alpha sh lr mom norm rest (pure_step alpha sh lr mom norm b st)
  end.

Fixpoint pure_loop `{Extern} (fuel n_iter : nat) (alpha : Q) (sh : list nat)
    (lr mom : Q) (norm : string) (batches : list (tval * tval))
    (st : nat * list Q * list Q) : option (nat * list Q * list Q) :=
  if fst (fst st) <? n_iter then
    match fuel with
    | 0 => None
    | S fuel' =>
        pure_loop fuel' n_iter alpha sh lr mom norm batches
                  (pure_pass alpha sh lr mom norm batches st)
    end
  else Some st.

(** The problem that a world holds: the parameters, the tensors of the
    matrix, the labels and the initial point, and their entries. *)
Record problem_in (w : world) (p : Params) (Xt yt x0t : tensor)
    (Xv yv zs : list Q) : Prop := mkProblemIn {
  pi_params : params (self w) = p;
  pi_X : self_X (self w) = Some Xt;
  pi_y : self_y (self w) = Some yt;
  pi_x0 : self_x0 (self w) = Some x0t;
  pi_criterion : self_criterion (self w) = Some BCEWithLogitsLoss_obj;
  pi_Xv : heap w !! storage Xt = Some Xv;
  pi_yv : heap w !! storage yt = Some yv;
  pi_zs : heap w !! storage x0t = Some zs
}.

(** The outcome of the stochastic run with [alpha] supplied, followed by
    [get_result], as a function of the problem. *)
Definition given_outcome `{Extern} (fuel n_iter : nat) (alpha : Q)
    (p : Params) (Xt yt x0t : tensor) (Xv yv zs : list Q)
    : outcome (list Q) :=
  match prepare_result (mkSolver p None (Some Xt) (Some yt) (Some x0t)
                                 None None) with
  | Some e => Raise e
  | None =>
      match pure_loop fuel n_iter alpha [numel (shape x0t)] (1 # 20)
              (momentum p) (normalization p)
              (loader_batches (mkTval Xv (shape Xt)) (mkTval yv (shape yt))
                              (batch_size p))
              (0, zs, []) with
      | Some (_, xv, _) => Ok xv
      | None => OutOfFuel
      end
  end.

Definition given_then_get_result `{Extern} (fuel n_iter : nat) (alpha : Q)
    : M (list Q) :=
  run_stochastic_given fuel n_iter alpha;; get_result.

(** A list of stochastic runs with [alpha] supplied, each with its budget,
    on the same solver object. *)
Fixpoint continue_each `{Extern} (fuel : nat) (runs : list (nat * Q))
    (w : world) : world :=
  match runs with
  | [] => w
  | (n, alpha) :: rest =>
      continue_each fuel rest (snd (run_stochastic_given fuel n alpha w))
  end.

(** The optimizer keeps its parameter and its settings. *)
Definition same_settings (o o' : optimizer) : Prop :=
  opt_param o' = opt_param o /\ opt_lr o' = opt_lr o /\
  opt_momentum o' = opt_momentum o /\
  opt_normalization o' = opt_normalization o.

(** Unfolds the monad and its primitive operations. *)
Ltac msimpl :=
  cbv [mbind M_bind mret M_ret raise out_of_fuel get_self put_self emit
       alloc load store getattr getparam get_world filterwarnings
       setattr_lmbd setattr_X setattr_y setattr_x0 setattr_criterion
       setattr_beta torch_tensor torch_zeros clone tensor_value
       set_requires_grad size0 TensorDataset DataLoader
       detach flatten reshape_row requires_grad_ contents];
  cbn [fst snd self heap trace filters params self_lmbd self_X self_y
       self_x0 self_criterion self_beta storage shape dtype dev
       requires_grad].

(** Splits on the device tests met on the way. *)
Ltac device_cases :=
  repeat match goal with
         | |- context [device_eqb ?a ?b] =>
             let E := fresh "Edev" in destruct (device_eqb a b) eqn:E; msimpl
         end.

(* ===================================================================== *)
(** ** The skip-check *)

Section SkipFacts.
Context `{Extern}.

Lemma batch_size_is_full (b : batch_size_t) :
  batch_size_is b "full" = true <-> b = BatchStr "full".
Proof.
  destruct b as [n | s]; simpl.
  - split; discriminate.
  - rewrite String.eqb_eq. split; [intros -> | intros [= ->]]; reflexivity.
Qed.

Lemma batch_size_not_full (b : batch_size_t) :
  batch_size_is b "full" = false <-> b <> BatchStr "full".
Proof.
  rewrite <- batch_size_is_full. destruct (batch_size_is b "full"); split; congruence.
Qed.

Lemma device_eqb_cuda (d : device_t) : device_eqb d cuda = true <-> d = cuda.
Proof. destruct d; simpl; split; congruence. Qed.

Lemma momentum_zero (q : Q) : Qeq_bool q 0 = true <-> (q == 0)%Q.
Proof. apply Qeq_bool_iff. Qed.

Lemma momentum_nonzero (q : Q) : Qeq_bool q 0 = false <-> ~ (q == 0)%Q.
Proof.
  rewrite <- momentum_zero. destruct (Qeq_bool q 0); split; congruence.
Qed.

Lemma normalization_not_none (s : string) :
  String.eqb s "none" = false <-> s <> "none".
Proof. apply String.eqb_neq. Qed.

Lemma degenerate_reflect (p : Params) :
  degenerate p <-> degenerate_b p = true.
Proof.
  unfold degenerate, degenerate_b.
  rewrite !orb_true_iff, !andb_true_iff, !negb_true_iff.
  rewrite device_eqb_cuda, batch_size_is_full, batch_size_not_full,
    normalization_not_none, momentum_nonzero.
  tauto.
Qed.

Lemma skip_flag (s : Solver) X y lmbd :
  fst (skip s X y lmbd) = degenerate_b (params s).
Proof.
  unfold skip, degenerate_b.
  destruct (device_eqb (device (params s)) cuda), cuda_is_available,
    (stochastic (params s)), (batch_size_is (batch_size (params s)) "full"),
    (line_search (params s)), (String.eqb (normalization (params s)) "none"),
    (Qeq_bool (momentum (params s)) 0); reflexivity.
Qed.

(** When [skip] says no, it gives no reason; when it says yes, it gives a
    message. *)
Lemma skip_reason (s : Solver) X y lmbd :
  (fst (skip s X y lmbd) = false /\ snd (skip s X y lmbd) = None) \/
  (fst (skip s X y lmbd) = true /\
   exists msg, snd (skip s X y lmbd) = Some msg /\ msg <> "").
Proof.
  unfold skip.
  destruct (device_eqb (device (params s)) cuda), cuda_is_available,
    (stochastic (params s)), (batch_size_is (batch_size (params s)) "full"),
    (line_search (params s)), (String.eqb (normalization (params s)) "none"),
    (Qeq_bool (momentum (params s)) 0); simpl;
    first [ left; split; reflexivity
          | right; split; [reflexivity | eexists; split; [reflexivity | discriminate]] ].
Qed.

End SkipFacts.

(* ===================================================================== *)
(** ** Problem setup *)

Lemma lookup_last_alloc {A} (h : list A) (a : A) :
  (h ++ [a]) !! length h = Some a.
Proof. by apply list_lookup_middle. Qed.

(** Looks a location up in a store that grew by allocations. *)
Ltac hsimpl :=
  repeat first
    [ rewrite lookup_last_alloc
    | rewrite lookup_app_l by (rewrite ?length_app; simpl; lia) ];
  cbn [default from_option id].

Lemma device_eqb_eq (a b : device_t) : device_eqb a b = true <-> a = b.
Proof. destruct a, b; simpl; split; congruence. Qed.

Section SetupFacts.
Context `{Extern}.

(** What [set_objective] leaves in the world. *)
Lemma set_objective_spec (w : world) X y lmbd :
  let w' := after_setup w X y lmbd in
  fst (set_objective X y lmbd w) = Ok tt /\
  params (self w') = params (self w) /\
  trace w' = trace w /\
  self_lmbd (self w') = Some lmbd /\
  self_criterion (self w') = Some BCEWithLogitsLoss_obj /\
  self_beta (self w') = self_beta (self w) /\
  (exists Xt, self_X (self w') = Some Xt /\
     dtype Xt = X_dtype X /\ dev Xt = device (params (self w)) /\
     shape Xt = [fst (X_shape X); snd (X_shape X)] /\
     heap w' !! storage Xt = Some (X_values X)) /\
  (exists yt, self_y (self w') = Some yt /\
     dtype yt = float64 /\ dev yt = device (params (self w)) /\
     shape yt = [length (y_values y)] /\
     heap w' !! storage yt =
       Some (map (fun v => bool_to_float (gt_zero v)) (y_values y))) /\
  (exists x0t, self_x0 (self w') = Some x0t /\
     dtype x0t = X_dtype X /\ dev x0t = X_device X /\
     shape x0t = [snd (X_shape X)] /\
     heap w' !! storage x0t = Some (repeat 0%Q (snd (X_shape X)))).
Proof.
  unfold after_setup, set_objective, tensor_to.
  destruct (X_shape X) as [ns nf]. msimpl. device_cases;
    repeat match goal with
           | E : device_eqb _ _ = true |- _ => apply device_eqb_eq in E
           end;
    repeat split; try reflexivity; try assumption;
    eexists; (split; [reflexivity |]); msimpl;
    repeat split; try reflexivity; try assumption; hsimpl; try reflexivity.
Qed.

End SetupFacts.

(* ===================================================================== *)
(** ** The optimization loop of the stochastic path *)

Lemma passes_none (b n c : nat) :
  0 < b -> n <= c -> (n - c + b - 1) / b = 0.
Proof. intros Hb Hc. apply Nat.div_small. lia. Qed.

Lemma passes_next (b n c : nat) :
  0 < b -> c < n ->
  (n - c + b - 1) / b = S ((n - (c + b) + b - 1) / b).
Proof.
  intros Hb Hc. destruct (le_lt_dec (c + b) n) as [Hle | Hgt].
  - replace (n - c + b - 1) with ((n - (c + b) + b - 1) + 1 * b) by lia.
    rewrite Nat.div_add by lia. lia.
  - rewrite (Nat.div_small (n - (c + b) + b - 1)) by lia.
    symmetry. apply (Nat.div_unique _ _ 1 (n - c - 1)); lia.
Qed.

Section LoopFacts.
Context `{Extern}.

(** One step: the counter and the trace grow by one, and only the storage
    of the optimizer's parameter is written. *)
Lemma loop_body_spec x alpha b c o (w : world) cr :
  self_criterion (self w) = Some cr ->
  exists o' h',
    loop_body x alpha b (c, o) w =
      (Ok (c + 1, o'),
       mkWorld (self w) h' (trace w ++ [PGD_step_called]) (filters w)) /\
    opt_param o' = opt_param o /\
    forall l, l <> storage (opt_param o) -> h' !! l = heap w !! l.
Proof.
  intros Hc. destruct b as [data target].
  unfold loop_body, PGD_step. msimpl. rewrite Hc. msimpl.
  cbn [opt_param opt_lr opt_momentum opt_normalization opt_grad opt_buf
       zero_grad backward].
  destruct (pgd_update _ _ _ _ _ _) as [xv' buf']. msimpl.
  eexists _, _. split; [reflexivity |]. split; [reflexivity |].
  intros l Hl. by apply list_lookup_insert_ne.
Qed.

(** One pass: as many steps as the loader has batches. *)
Lemma for_loader_spec x alpha batches c o (w : world) cr :
  self_criterion (self w) = Some cr ->
  exists o' h',
    for_loader x alpha batches (c, o) w =
      (Ok (c + length batches, o'),
       mkWorld (self w) h'
               (trace w ++ repeat PGD_step_called (length batches))
               (filters w)) /\
    opt_param o' = opt_param o /\
    forall l, l <> storage (opt_param o) -> h' !! l = heap w !! l.
Proof.
  revert c o w. induction batches as [| b rest IH]; intros c o w Hc.
  - exists o, (heap w). cbn [for_loader length repeat]. msimpl.
    rewrite Nat.add_0_r, app_nil_r. destruct w; cbn. repeat split.
  - destruct (loop_body_spec x alpha b c o w cr Hc) as (o1 & h1 & E1 & P1 & F1).
    destruct (IH (c + 1) o1
                 (mkWorld (self w) h1 (trace w ++ [PGD_step_called])
                          (filters w)) Hc)
      as (o2 & h2 & E2 & P2 & F2).
    exists o2, h2. cbn [for_loader]. cbv [mbind M_bind]. rewrite E1, E2.
    cbn [self heap trace filters length repeat].
    split; [| split].
    + f_equal; [f_equal; f_equal; lia |].
      f_equal. by rewrite <- app_assoc.
    + congruence.
    + intros l Hl. rewrite F2 by congruence. cbn [heap]. by apply F1.
Qed.

Lemma iter_loader_spec dataset bs (w : world) :
  iter_loader dataset bs w = (Ok (dataset_batches w dataset bs), w).
Proof. reflexivity. Qed.

(** The batches of a pass do not change when the dataset's storages do
    not. *)
Lemma dataset_batches_frame (w w' : world) dataset bs :
  heap w' !! storage (fst dataset) = heap w !! storage (fst dataset) ->
  heap w' !! storage (snd dataset) = heap w !! storage (snd dataset) ->
  dataset_batches w' dataset bs = dataset_batches w dataset bs.
Proof. intros E1 E2. unfold dataset_batches, contents. by rewrite E1, E2. Qed.

(** The loop runs whole passes until the counter has reached the budget. *)
Lemma optimization_loop_spec n_iter dataset bs x alpha b :
  0 < b ->
  forall fuel c o (w : world) cr,
    self_criterion (self w) = Some cr ->
    storage (opt_param o) <> storage (fst dataset) ->
    storage (opt_param o) <> storage (snd dataset) ->
    length (dataset_batches w dataset bs) = b ->
    n_iter - c <= fuel ->
    exists o' h',
      optimization_loop fuel n_iter dataset bs x alpha (c, o) w =
        (Ok (c + b * ((n_iter - c + b - 1) / b), o'),
         mkWorld (self w) h'
           (trace w ++
            repeat PGD_step_called (b * ((n_iter - c + b - 1) / b)))
           (filters w)).
Proof.
  intros Hb fuel. induction fuel as [| fuel IH]; intros c o w cr Hc HX Hy Hlen Hfuel.
  - assert (n_iter <= c) as Hdone by lia.
    exists o, (heap w). cbn [optimization_loop fst].
    destruct (Nat.ltb_spec c n_iter) as [Hlt | _]; [lia |].
    rewrite passes_none by assumption. msimpl.
    rewrite Nat.mul_0_r, Nat.add_0_r. cbn [repeat]. rewrite app_nil_r.
    destruct w; reflexivity.
  - cbn [optimization_loop fst].
    destruct (Nat.ltb_spec c n_iter) as [Hlt | Hge].
    + cbv [mbind M_bind]. rewrite iter_loader_spec.
      destruct (for_loader_spec x alpha (dataset_batches w dataset bs) c o w cr Hc)
        as (o1 & h1 & E1 & P1 & F1).
      rewrite E1, Hlen.
      destruct (IH (c + b) o1
                   (mkWorld (self w) h1
                            (trace w ++ repeat PGD_step_called b)
                            (filters w)) cr)
        as (o2 & h2 & E2); cbn [self heap trace filters].
      * exact Hc.
      * congruence.
      * congruence.
      * rewrite <- Hlen at 2. rewrite <- Hlen.
        f_equal. apply dataset_batches_frame; cbn [heap]; apply F1; congruence.
      * lia.
      * exists o2, h2. rewrite E2. rewrite (passes_next b n_iter c) by assumption.
        cbn [self heap trace filters].
        f_equal; [f_equal; f_equal; lia |].
        f_equal. rewrite <- app_assoc. f_equal.
        rewrite Nat.mul_succ_r, (Nat.add_comm (b * _) b).
        symmetry. apply repeat_app.
    + exists o, (heap w). rewrite passes_none by assumption. msimpl.
      rewrite Nat.mul_0_r, Nat.add_0_r. cbn [repeat]. rewrite app_nil_r.
      destruct w; reflexivity.
Qed.

(** A loader without batches never moves the counter: with a positive
    budget the loop has no end. *)
Lemma optimization_loop_empty_loader fuel n_iter dataset bs x alpha c o
    (w : world) :
  c < n_iter ->
  dataset_batches w dataset bs = [] ->
  optimization_loop fuel n_iter dataset bs x alpha (c, o) w = (OutOfFuel, w).
Proof.
  intros Hc Hnil. induction fuel as [| fuel IH]; cbn [optimization_loop fst];
    destruct (Nat.ltb_spec c n_iter) as [_ | Hge]; try lia.
  - reflexivity.
  - cbv [mbind M_bind]. rewrite iter_loader_spec, Hnil.
    cbn [for_loader]. cbv [mret M_ret]. exact IH.
Qed.

Lemma frame_refl (l0 : loc) (w : world) : frame l0 w w.
Proof. by split. Qed.

Lemma frame_trans (l0 : loc) (w1 w2 w3 : world) :
  frame l0 w1 w2 -> frame l0 w2 w3 -> frame l0 w1 w3.
Proof.
  intros [] []. split; try congruence.
  intros l Hl. rewrite frame_heap1 by assumption. by apply frame_heap0.
Qed.

(** A step, whatever its outcome, writes nothing but the storage of the
    optimizer's parameter, and keeps that parameter when it returns. *)
Lemma loop_body_frame x alpha b c o (w : world) :
  frame (storage (opt_param o)) w (snd (loop_body x alpha b (c, o) w)) /\
  forall c' o', fst (loop_body x alpha b (c, o) w) = Ok (c', o') ->
                opt_param o' = opt_param o.
Proof.
  destruct b as [data target].
  unfold loop_body, PGD_step. msimpl.
  destruct (self_criterion (self w)) as [cr |]; msimpl.
  - cbn [opt_param opt_lr opt_momentum opt_normalization opt_grad opt_buf
         zero_grad backward].
    destruct (pgd_update _ _ _ _ _ _) as [xv' buf']. msimpl. split.
    + split; cbn [self heap]; [reflexivity | apply length_insert |].
      intros l Hl. apply list_lookup_insert_ne. congruence.
    + intros c' o' [= _ <-]. reflexivity.
  - split; [apply frame_refl | discriminate].
Qed.

Lemma for_loader_frame x alpha batches c o (w : world) :
  frame (storage (opt_param o)) w
        (snd (for_loader x alpha batches (c, o) w)) /\
  forall c' o', fst (for_loader x alpha batches (c, o) w) = Ok (c', o') ->
                opt_param o' = opt_param o.
Proof.
  revert c o w. induction batches as [| b rest IH]; intros c o w.
  - cbn [for_loader]. msimpl. split; [apply frame_refl |].
    intros c' o' [= _ <-]. reflexivity.
  - cbn [for_loader]. cbv [mbind M_bind].
    destruct (loop_body_frame x alpha b c o w) as [F1 P1].
    destruct (loop_body x alpha b (c, o) w) as [[[c1 o1] | e |] w1];
      cbn [fst snd] in *; try (split; [assumption | discriminate]).
    specialize (P1 c1 o1 eq_refl).
    destruct (IH c1 o1 w1) as [F2 P2]. rewrite P1 in F2. split.
    + eapply frame_trans; eassumption.
    + intros c' o' E. rewrite (P2 c' o' E). exact P1.
Qed.

(** The loop, whatever its outcome, writes nothing but the storage of the
    optimizer's parameter. *)
Lemma optimization_loop_frames fuel n_iter dataset bs x alpha c o (w : world) :
  frame (storage (opt_param o)) w
        (snd (optimization_loop fuel n_iter dataset bs x alpha (c, o) w)).
Proof.
  revert c o w. induction fuel as [| fuel IH]; intros c o w;
    cbn [optimization_loop fst]; destruct (c <? n_iter);
    try apply frame_refl.
  cbv [mbind M_bind]. rewrite iter_loader_spec.
  destruct (for_loader_frame x alpha (dataset_batches w dataset bs) c o w)
    as [F1 P1].
  destruct (for_loader x alpha (dataset_batches w dataset bs) (c, o) w)
    as [[[c1 o1] | e |] w1]; cbn [fst snd] in *; try assumption.
  specialize (P1 c1 o1 eq_refl).
  specialize (IH c1 o1 w1). rewrite P1 in IH.
  eapply frame_trans; eassumption.
Qed.

(** One step computes [pure_step] on the entries of [x]. *)
Lemma loop_body_values x alpha b c o (w : world) cr xv :
  self_criterion (self w) = Some cr ->
  storage (opt_param o) = storage x ->
  heap w !! storage x = Some xv ->
  exists o',
    fst (loop_body x alpha b (c, o) w)
      = Ok (fst (fst (pure_step alpha (shape x) (opt_lr o) (opt_momentum o)
                                (opt_normalization o) b (c, xv, opt_buf o))),
            o') /\
    same_settings o o' /\
    opt_buf o'
      = snd (pure_step alpha (shape x) (opt_lr o) (opt_momentum o)
                       (opt_normalization o) b (c, xv, opt_buf o)) /\
    heap (snd (loop_body x alpha b (c, o) w)) !! storage x
      = Some (snd (fst (pure_step alpha (shape x) (opt_lr o) (opt_momentum o)
                                  (opt_normalization o) b (c, xv, opt_buf o)))).
Proof.
  intros Hc Hp Hx. destruct b as [data target].
  unfold loop_body, PGD_step, pure_step. msimpl. rewrite Hc. msimpl.
  cbn [opt_param opt_lr opt_momentum opt_normalization opt_grad opt_buf
       zero_grad backward].
  rewrite Hp, Hx. cbn [default from_option id].
  destruct (pgd_update _ _ _ _ _ _) as [xv' buf']. msimpl.
  eexists. split; [reflexivity |]. split; [by repeat split |].
  split; [reflexivity |].
  apply list_lookup_insert_eq. by eapply lookup_lt_Some.
Qed.

(** One pass computes [pure_pass]. *)
Lemma for_loader_values x alpha batches c o (w : world) cr xv :
  self_criterion (self w) = Some cr ->
  storage (opt_param o) = storage x ->
  heap w !! storage x = Some xv ->
  exists o',
    fst (for_loader x alpha batches (c, o) w)
      = Ok (fst (fst (pure_pass alpha (shape x) (opt_lr o) (opt_momentum o)
                                (opt_normalization o) batches
                                (c, xv, opt_buf o))),
            o') /\
    same_settings o o' /\
    opt_buf o'
      = snd (pure_pass alpha (shape x) (opt_lr o) (opt_momentum o)
                       (opt_normalization o) batches (c, xv, opt_buf o)) /\
    heap (snd (for_loader x alpha batches (c, o) w)) !! storage x
      = Some (snd (fst (pure_pass alpha (shape x) (opt_lr o) (opt_momentum o)
                                  (opt_normalization o) batches
                                  (c, xv, opt_buf o)))).
Proof.
  revert c o w xv. induction batches as [| b rest IH]; intros c o w xv Hc Hp Hx.
  - exists o. cbn [for_loader pure_pass fst snd]. msimpl.
    repeat split. exact Hx.
  - cbn [for_loader pure_pass]. cbv [mbind M_bind].
    destruct (loop_body_values x alpha b c o w cr xv Hc Hp Hx)
      as (o1 & E1 & (S1 & S2 & S3 & S4) & B1 & X1).
    destruct (loop_body_frame x alpha b c o w) as [F1 _].
    destruct (loop_body x alpha b (c, o) w) as [r1 w1]. cbn [fst snd] in *.
    subst r1.
    destruct (pure_step alpha (shape x) (opt_lr o) (opt_momentum o)
                        (opt_normalization o) b (c, xv, opt_buf o))
      as [[c1 xv1] buf1] eqn:Ep. cbn [fst snd] in *.
    destruct (IH c1 o1 w1 xv1) as (o2 & E2 & (T1 & T2 & T3 & T4) & B2 & X2).
    + by rewrite (frame_self _ _ _ F1).
    + congruence.
    + exact X1.
    + rewrite S2, S3, S4, B1 in E2, B2, X2.
      exists o2. split; [exact E2 |].
      split; [repeat split; congruence |]. split; assumption.
Qed.

(** The loop computes [pure_loop] on the batches of the dataset. *)
Lemma optimization_loop_values n_iter dataset bs x alpha :
  forall fuel c o (w : world) cr xv,
    self_criterion (self w) = Some cr ->
    storage (opt_param o) = storage x ->
    storage x <> storage (fst dataset) ->
    storage x <> storage (snd dataset) ->
    heap w !! storage x = Some xv ->
    match pure_loop fuel n_iter alpha (shape x) (opt_lr o) (opt_momentum o)
                    (opt_normalization o) (dataset_batches w dataset bs)
                    (c, xv, opt_buf o) with
    | Some (c', xv', buf') =>
        (exists o',
           fst (optimization_loop fuel n_iter dataset bs x alpha (c, o) w)
             = Ok (c', o')) /\
        heap (snd (optimization_loop fuel n_iter dataset bs x alpha (c, o) w))
          !! storage x = Some xv'
    | None =>
        fst (optimization_loop fuel n_iter dataset bs x alpha (c, o) w)
          = OutOfFuel
    end.
Proof.
  induction fuel as [| fuel IH]; intros c o w cr xv Hc Hp HX Hy Hx;
    cbn [optimization_loop pure_loop fst]; destruct (c <? n_iter);
    try reflexivity; try (split; [by exists o | exact Hx]).
  cbv [mbind M_bind]. rewrite iter_loader_spec.
  set (B := dataset_batches w dataset bs).
  destruct (for_loader_values x alpha B c o w cr xv Hc Hp Hx)
    as (o1 & E1 & (S1 & S2 & S3 & S4) & B1 & X1).
  destruct (for_loader_frame x alpha B c o w) as [F1 _].
  destruct (for_loader x alpha B (c, o) w) as [r1 w1]. cbn [fst snd] in *.
  subst r1.
  destruct (pure_pass alpha (shape x) (opt_lr o) (opt_momentum o)
                      (opt_normalization o) B (c, xv, opt_buf o))
    as [[c1 xv1] buf1] eqn:Ep. cbn [fst snd] in *.
  assert (dataset_batches w1 dataset bs = B) as HB.
  { apply dataset_batches_frame; apply (frame_heap _ _ _ F1); congruence. }
  specialize (IH c1 o1 w1 cr xv1).
  rewrite HB, S2, S3, S4, B1 in IH.
  apply IH; try assumption.
  - by rewrite (frame_self _ _ _ F1).
  - congruence.
Qed.

End LoopFacts.

(* ===================================================================== *)
(** ** Where the runs stop *)

Lemma count_steps_app (t1 t2 : list event) :
  count_steps (t1 ++ t2) = count_steps t1 + count_steps t2.
Proof. unfold count_steps. by rewrite List.filter_app, length_app. Qed.

Lemma count_steps_repeat (n : nat) :
  count_steps (repeat PGD_step_called n) = n.
Proof.
  unfold count_steps. induction n as [| n IH]; cbn; [reflexivity |].
  by rewrite IH.
Qed.

Lemma world_eta (w : world) :
  mkWorld (self w) (heap w) (trace w) (filters w) = w.
Proof. by destruct w. Qed.

Section RunFacts.
Context `{Extern}.

(** The module binds no [X]. *)
Lemma load_global_X (w : world) :
  load_global "X" w = (Raise (NameError "X"), w).
Proof. reflexivity. Qed.

(** [logloss] stops at its first line, on the name [X]. *)
Lemma logloss_raises (x : tval) (w : world) l :
  self_lmbd (self w) = Some l ->
  logloss x w = (Raise (NameError "X"), w).
Proof.
  intros Hl. unfold logloss. msimpl. rewrite Hl. msimpl.
  rewrite load_global_X. reflexivity.
Qed.

(** Lines 72 to 84 stop as [prepare_result] says; when they go through,
    [x] is a new storage with the entries of [x0], and the optimizer is
    new. *)
Lemma prepare_spec (w : world) :
  match prepare_result (self w) with
  | Some e =>
      exists more,
        stochastic_prepare w
          = (Raise e, mkWorld (self w) (heap w ++ more) (trace w) (filters w))
  | None =>
      exists Xt yt x0t,
        self_X (self w) = Some Xt /\ self_y (self w) = Some yt /\
        self_x0 (self w) = Some x0t /\
        stochastic_prepare w
          = (Ok (Xt, yt, batch_size (params (self w)),
                 mkTensor (length (heap w)) [numel (shape x0t)] (dtype x0t)
                          (dev x0t) true,
                 mkOptimizer
                   (mkTensor (length (heap w)) [numel (shape x0t)]
                             (dtype x0t) (dev x0t) true)
                   (1 # 20) (momentum (params (self w)))
                   (normalization (params (self w))) None []),
             mkWorld (self w) (heap w ++ [contents w x0t])
                     (trace w ++ [PGD_created]) (filters w))
  end.
Proof.
  unfold prepare_result, stochastic_prepare, PGD.
  destruct (self_X (self w)) as [Xt |] eqn:HX; msimpl; rewrite ?HX; msimpl;
    [| exists []; by rewrite app_nil_r, world_eta].
  destruct (self_y (self w)) as [yt |] eqn:Hy; msimpl;
    [| exists []; by rewrite app_nil_r, world_eta].
  destruct (shape Xt !! 0) as [na |]; msimpl;
    [| exists []; by rewrite app_nil_r, world_eta].
  destruct (shape yt !! 0) as [nb |]; msimpl;
    [| exists []; by rewrite app_nil_r, world_eta].
  destruct (Nat.eqb na nb); cbn [negb]; msimpl;
    [| exists []; by rewrite app_nil_r, world_eta].
  destruct (batch_size (params (self w))) as [[| b] | s] eqn:Hb; msimpl;
    try (exists []; by rewrite app_nil_r, world_eta).
  destruct (self_x0 (self w)) as [x0t |] eqn:Hx0; msimpl;
    [| exists []; by rewrite app_nil_r, world_eta].
  destruct (is_floating (dtype x0t)); cbn [negb andb]; msimpl;
    [| by eexists [_]].
  destruct (String.eqb (solver (params (self w))) "pgd"); msimpl;
    [| by eexists [_]].
  exists Xt, yt, x0t. by repeat split.
Qed.

(** [run_stochastic] stops before its loop, having made no step. *)
Lemma run_stochastic_stops fuel n (w : world) :
  exists more tr,
    run_stochastic fuel n w
      = (Raise (stochastic_exception (self w)),
         mkWorld (self w) (heap w ++ more) (trace w ++ tr) (filters w)) /\
    count_steps tr = 0.
Proof.
  pose proof (prepare_spec w) as Hp.
  unfold run_stochastic, stochastic_exception. cbv [mbind M_bind].
  destruct (prepare_result (self w)) as [e |].
  - destruct Hp as (more & ->). exists more, [].
    by rewrite app_nil_r.
  - destruct Hp as (Xt & yt & x0t & _ & _ & _ & ->). msimpl.
    destruct (self_lmbd (self w)) as [l |]; msimpl;
      eexists [_], [_]; split; reflexivity.
Qed.

(** [run_full_batch] with a positive budget stops at the test of the
    solver's name, or in the first evaluation of [logloss]. *)
Lemma run_full_batch_stops n (w : world) :
  exists tr,
    run_full_batch (S n) w
      = (Raise (full_batch_exception (self w)),
         mkWorld (self w) (heap w) (trace w ++ tr) (filters w)) /\
    count_steps tr = 0.
Proof.
  unfold run_full_batch, full_batch_exception, minimize_pgd. msimpl.
  destruct (self_x0 (self w)) as [x0t |]; msimpl;
    [| exists []; by rewrite app_nil_r, world_eta].
  destruct (String.eqb (solver (params (self w))) "pgd"); msimpl;
    [| exists []; by rewrite app_nil_r, world_eta].
  cbn [pgd_iterations]. unfold closure, logloss. msimpl.
  destruct (self_lmbd (self w)) as [l |]; msimpl; by eexists [_].
Qed.

(** A run with a positive budget installs the warnings filter, then
    raises; it assigns no attribute and makes no step. *)
Lemma run_stops fuel n (w : world) :
  fst (run fuel (S n) w) = Raise (run_exn (self w)) /\
  self (snd (run fuel (S n) w)) = self w /\
  (exists more, heap (snd (run fuel (S n) w)) = heap w ++ more) /\
  filters (snd (run fuel (S n) w)) = ignore_runtime_warnings (filters w) /\
  count_steps (trace (snd (run fuel (S n) w))) = count_steps (trace w).
Proof.
  unfold run, run_exn. cbn [Nat.eqb]. msimpl.
  set (w1 := mkWorld (self w) (heap w) (trace w) _).
  destruct (stochastic (params (self w))).
  - destruct (run_stochastic_stops fuel (S n) w1) as (more & tr & -> & Ht).
    subst w1. cbn [fst snd self heap trace filters]. repeat split.
    + by exists more.
    + rewrite count_steps_app. lia.
  - destruct (run_full_batch_stops n w1) as (tr & -> & Ht).
    subst w1. cbn [fst snd self heap trace filters]. repeat split.
    + exists []. by rewrite app_nil_r.
    + rewrite count_steps_app. lia.
Qed.

(** A run with budget 0 makes [beta] the tensor [x0] itself. *)
Lemma run_zero fuel (w : world) x0t :
  self_x0 (self w) = Some x0t ->
  run fuel 0 w =
    (Ok tt,
     mkWorld (mkSolver (params (self w)) (self_lmbd (self w)) (self_X (self w))
                       (self_y (self w)) (self_x0 (self w))
                       (self_criterion (self w)) (Some x0t))
             (heap w) (trace w) (filters w)).
Proof.
  intros Hx0. unfold run. cbn [Nat.eqb]. msimpl.
  rewrite Hx0. msimpl. by rewrite Hx0.
Qed.

Lemma extends_refl (w : world) : extends w w.
Proof. split; try reflexivity. exists []. by rewrite app_nil_r. Qed.

Lemma extends_trans (w1 w2 w3 : world) :
  extends w1 w2 -> extends w2 w3 -> extends w1 w3.
Proof.
  intros [] []. split; try congruence.
  destruct ext_heap0 as [m1 E1], ext_heap1 as [m2 E2].
  exists (m1 ++ m2). by rewrite E2, E1, app_assoc.
Qed.

Lemma ready_extends (w w' : world) x0t zs :
  ready w x0t zs -> extends w w' -> ready w' x0t zs.
Proof.
  intros [] []. split; try congruence.
  destruct ext_heap0 as [more ->]. by apply lookup_app_l_Some.
Qed.

(** The exception of a positive run depends on the problem alone. *)
Lemma run_exn_extends (w w' : world) :
  extends w w' -> run_exn (self w') = run_exn (self w).
Proof.
  intros [Hp Hl HX Hy Hx0 _ _].
  unfold run_exn, stochastic_exception, full_batch_exception, prepare_result.
  by rewrite Hp, Hl, HX, Hy, Hx0.
Qed.

(** No run touches the problem or the storages that exist. *)
Lemma run_extends fuel n (w : world) x0t zs :
  ready w x0t zs -> extends w (snd (run fuel n w)).
Proof.
  intros R. destruct n as [| n].
  - rewrite (run_zero _ _ _ (ready_x0 _ _ _ R)). cbn [snd].
    split; try reflexivity. exists []. cbn [heap]. by rewrite app_nil_r.
  - destruct (run_stops fuel n w) as (_ & Hs & Hh & _).
    split; try (by rewrite Hs). exact Hh.
Qed.

Lemma run_each_extends fuel budgets (w : world) x0t zs :
  ready w x0t zs -> extends w (run_each fuel budgets w).
Proof.
  revert w. induction budgets as [| n rest IH]; intros w R; cbn [run_each].
  - apply extends_refl.
  - pose proof (run_extends fuel n _ _ _ R) as E.
    eapply extends_trans; [exact E |].
    apply IH. eapply ready_extends; eauto.
Qed.

(** The result of a run depends on the problem alone. *)
Lemma get_result_of (w : world) bt zs :
  self_beta (self w) = Some bt ->
  heap w !! storage bt = Some zs ->
  fst (get_result w) = Ok zs.
Proof.
  intros Hb Hst. unfold get_result, tensor_to. msimpl. rewrite Hb. msimpl.
  device_cases; rewrite Hst; cbn [default from_option id]; [reflexivity |].
  hsimpl. reflexivity.
Qed.

Lemma run_then_get_result_of fuel n (w : world) x0t zs :
  ready w x0t zs ->
  fst (run_then_get_result fuel n w) =
    match n with
    | 0 => Ok zs
    | S _ => Raise (run_exn (self w))
    end.
Proof.
  intros R. unfold run_then_get_result.
  destruct n as [| n].
  - cbv [mbind M_bind]. rewrite (run_zero _ _ _ (ready_x0 _ _ _ R)).
    eapply get_result_of; [reflexivity |]. cbn [heap]. apply (ready_store _ _ _ R).
  - destruct (run_stops fuel n w) as (Hr & _).
    cbv [mbind M_bind]. destruct (run fuel (S n) w) as [o w'].
    cbn [fst] in Hr. subst o. reflexivity.
Qed.

Lemma after_setup_ready (w : world) X y lmbd :
  exists x0t,
    ready (after_setup w X y lmbd) x0t (repeat 0%Q (snd (X_shape X))) /\
    dtype x0t = X_dtype X /\ dev x0t = X_device X /\
    shape x0t = [snd (X_shape X)].
Proof.
  destruct (set_objective_spec w X y lmbd)
    as (_ & _ & _ & Hl & _ & _ & (Xt & HX & _) & (yt & Hy & _) &
        (x0t & Hx0 & Hdt & Hdev & Hsh & Hst)).
  exists x0t. repeat split; eauto.
Qed.

(** After setup, the full-batch path stops at the test of the solver's
    name or on the name [X]; so does the stochastic path when its dataset,
    loader and variable can be built. *)
Lemma after_setup_full_batch_exception (w : world) X y lmbd :
  full_batch_exception (self (after_setup w X y lmbd))
    = run_exception (params (self w)).
Proof.
  destruct (set_objective_spec w X y lmbd)
    as (_ & Hp & _ & Hl & _ & _ & _ & _ & (x0t & Hx0 & _)).
  unfold full_batch_exception, run_exception. by rewrite Hx0, Hp, Hl.
Qed.

Lemma after_setup_stochastic_exception (w : world) X y lmbd :
  stochastic_inputs_ok (params (self w)) X y ->
  stochastic_exception (self (after_setup w X y lmbd))
    = run_exception (params (self w)).
Proof.
  intros (Hrows & (b & Hb) & Hfl).
  destruct (set_objective_spec w X y lmbd)
    as (_ & Hp & _ & Hl & _ & _ & (Xt & HX & _ & _ & HsX & _) &
        (yt & Hy & _ & _ & Hsy & _) & (x0t & Hx0 & Hdt & _)).
  unfold stochastic_exception, prepare_result, run_exception.
  rewrite HX, Hy, Hx0, Hp, Hl, HsX, Hsy, Hb, Hdt, Hfl. cbn [lookup list_lookup].
  rewrite Hrows, Nat.eqb_refl. cbn [negb].
  by destruct (String.eqb (solver (params (self w))) "pgd").
Qed.

(** With the solver "pgd", no path stops on [NotImplementedError]. *)
Lemma pgd_not_NotImplementedError (s : Solver) :
  solver (params s) = "pgd" ->
  stochastic_exception s <> NotImplementedError /\
  full_batch_exception s <> NotImplementedError.
Proof.
  intros Hs. apply String.eqb_eq in Hs.
  unfold stochastic_exception, full_batch_exception, prepare_result.
  rewrite Hs. split.
  - destruct (self_X s) as [Xt |]; [| discriminate].
    destruct (self_y s) as [yt |]; [| discriminate].
    destruct (shape Xt !! 0); [| discriminate].
    destruct (shape yt !! 0); [| discriminate].
    destruct (negb _); [discriminate |].
    destruct (batch_size (params s)) as [[| b] | bs]; try discriminate.
    destruct (self_x0 s) as [x0t |]; [| discriminate].
    destruct (negb _); [discriminate |].
    destruct (self_lmbd s); discriminate.
  - destruct (self_x0 s); [| discriminate].
    destruct (self_lmbd s); discriminate.
Qed.

End RunFacts.

(* ===================================================================== *)
(** ** The stochastic run with [alpha] supplied *)

Section GivenFacts.
Context `{Extern}.

Lemma prepare_result_problem (w : world) p Xt yt x0t Xv yv zs :
  problem_in w p Xt yt x0t Xv yv zs ->
  prepare_result (self w)
    = prepare_result (mkSolver p None (Some Xt) (Some yt) (Some x0t)
                               None None).
Proof.
  intros [Hp HX Hy Hx0 _ _ _ _]. unfold prepare_result.
  cbn [self_X self_y self_x0 params]. by rewrite Hp, HX, Hy, Hx0.
Qed.

(** A world with more storages after those of the problem, and any
    [beta], holds the same problem. *)
Lemma problem_in_frame (w w' : world) p Xt yt x0t Xv yv zs :
  problem_in w p Xt yt x0t Xv yv zs ->
  params (self w') = params (self w) ->
  self_X (self w') = self_X (self w) ->
  self_y (self w') = self_y (self w) ->
  self_x0 (self w') = self_x0 (self w) ->
  self_criterion (self w') = self_criterion (self w) ->
  (forall l, l < length (heap w) -> heap w' !! l = heap w !! l) ->
  problem_in w' p Xt yt x0t Xv yv zs.
Proof.
  intros [Hp HX Hy Hx0 Hc HXv Hyv Hzs] Ep EX Ey Ex0 Ec Eh.
  split; try congruence.
  - rewrite Eh; [assumption | by eapply lookup_lt_Some].
  - rewrite Eh; [assumption | by eapply lookup_lt_Some].
  - rewrite Eh; [assumption | by eapply lookup_lt_Some].
Qed.

(** The run with [alpha] supplied computes [given_outcome], and leaves the
    problem as it was. *)
Lemma given_spec fuel n alpha (w : world) p Xt yt x0t Xv yv zs :
  problem_in w p Xt yt x0t Xv yv zs ->
  fst (given_then_get_result fuel n alpha w)
    = given_outcome fuel n alpha p Xt yt x0t Xv yv zs /\
  problem_in (snd (run_stochastic_given fuel n alpha w))
             p Xt yt x0t Xv yv zs.
Proof.
  intros P. pose proof P as [Hp HX Hy Hx0 Hc HXv Hyv Hzs]. subst p.
  pose proof (prepare_spec w) as Hprep.
  rewrite (prepare_result_problem _ _ _ _ _ _ _ _ P) in Hprep.
  unfold given_then_get_result, run_stochastic_given, given_outcome.
  cbv [mbind M_bind].
  destruct (prepare_result _) as [e |].
  - destruct Hprep as (more & ->). split; [reflexivity |].
    cbn [snd]. eapply problem_in_frame; [exact P | reflexivity ..|].
    intros l Hl. cbn [heap]. by apply lookup_app_l.
  - destruct Hprep as (Xt' & yt' & x0t' & HX' & Hy' & Hx0' & ->).
    assert (Xt' = Xt) as -> by congruence.
    assert (yt' = yt) as -> by congruence.
    assert (x0t' = x0t) as -> by congruence.
    unfold contents. rewrite Hzs. cbn [default from_option id].
    set (x := mkTensor (length (heap w)) _ _ _ _).
    set (o := mkOptimizer x _ _ _ _ _).
    set (w1 := mkWorld (self w) (heap w ++ [zs]) _ _).
    assert (problem_in w1 (params (self w)) Xt yt x0t Xv yv zs) as P1.
    { eapply problem_in_frame; [exact P | reflexivity ..|].
      intros l Hl. cbn [w1 heap]. by apply lookup_app_l. }
    assert (storage x <> storage Xt) as NX.
    { apply lookup_lt_Some in HXv. cbn [x storage]. lia. }
    assert (storage x <> storage yt) as Ny.
    { apply lookup_lt_Some in Hyv. cbn [x storage]. lia. }
    pose proof (optimization_loop_values n (Xt, yt)
                  (batch_size (params (self w))) x alpha fuel 0 o w1
                  BCEWithLogitsLoss_obj zs Hc eq_refl NX Ny
                  (lookup_last_alloc _ _)) as Hval.
    pose proof (optimization_loop_frames fuel n (Xt, yt)
                  (batch_size (params (self w))) x alpha 0 o w1) as Hfr.
    assert (dataset_batches w1 (Xt, yt) (batch_size (params (self w)))
            = loader_batches (mkTval Xv (shape Xt)) (mkTval yv (shape yt))
                             (batch_size (params (self w)))) as HB.
    { unfold dataset_batches, contents. cbn [fst snd].
      by rewrite (pi_Xv _ _ _ _ _ _ _ _ P1), (pi_yv _ _ _ _ _ _ _ _ P1). }
    rewrite HB in Hval. cbn [o opt_lr opt_momentum opt_normalization opt_buf
                             x shape] in Hval.
    unfold stochastic_optimize. cbv [mbind M_bind]. cbn [fst snd].
    destruct (optimization_loop fuel n (Xt, yt) (batch_size (params (self w)))
                                x alpha (0, o) w1) as [r w2].
    cbn [fst snd] in Hval, Hfr.
    assert (problem_in w2 (params (self w)) Xt yt x0t Xv yv zs) as P2.
    { destruct Hfr as [Fs Fl Fh].
      eapply problem_in_frame; [exact P | by rewrite Fs ..|].
      intros l Hl. rewrite Fh by (cbn [o opt_param x storage]; lia).
      cbn [w1 heap]. by apply lookup_app_l. }
    destruct (pure_loop _ _ _ _ _ _ _ _ _) as [[[c' xv'] buf'] |].
    + destruct Hval as [(o' & ->) Hx]. msimpl.
      rewrite Hx. cbn [default from_option id]. split.
      * eapply get_result_of; [reflexivity |]. cbn [storage heap].
        apply lookup_last_alloc.
      * eapply problem_in_frame; [exact P2 | reflexivity ..|].
        intros l Hl. cbn [heap]. by apply lookup_app_l.
    + subst r. split; [reflexivity | exact P2].
Qed.

(** A pass moves the counter by the number of batches. *)
Lemma pure_pass_counter alpha sh lr mom norm batches :
  forall st,
    fst (fst (pure_pass alpha sh lr mom norm batches st))
      = fst (fst st) + length batches.
Proof.
  induction batches as [| b rest IH]; intros st; cbn [pure_pass length].
  - lia.
  - rewrite IH. destruct st as [[c xv] buf]. unfold pure_step.
    destruct (pgd_update _ _ _ _ _ _). cbn [fst]. lia.
Qed.

(** With a budget of 0 the loop is not entered. *)
Lemma pure_loop_zero fuel alpha sh lr mom norm batches st :
  pure_loop fuel 0 alpha sh lr mom norm batches st = Some st.
Proof. destruct fuel; reflexivity. Qed.

(** With at least one batch and a pass of fuel for each step of the budget
    that is left, the loop ends. *)
Lemma pure_loop_returns n_iter alpha sh lr mom norm batches :
  batches <> [] ->
  forall fuel st,
    n_iter <= fst (fst st) + fuel ->
    exists r, pure_loop fuel n_iter alpha sh lr mom norm batches st = Some r.
Proof.
  intros Hb. induction fuel as [| fuel IH]; intros st Hn; cbn [pure_loop];
    destruct (fst (fst st) <? n_iter) eqn:Hlt; try (by eexists).
  - apply Nat.ltb_lt in Hlt. lia.
  - apply IH. rewrite pure_pass_counter.
    destruct batches; [done | cbn [length]; lia].
Qed.

(** The outcome of the run with [alpha] supplied when lines 72 to 84 go
    through: the zero vector for the budget 0, and a result whenever the
    loader has a batch and the fuel covers the budget. *)
Lemma given_outcome_returns fuel n alpha p Xt yt x0t Xv yv zs :
  prepare_result (mkSolver p None (Some Xt) (Some yt) (Some x0t) None None)
    = None ->
  given_outcome fuel 0 alpha p Xt yt x0t Xv yv zs = Ok zs /\
  (n <= fuel ->
   loader_batches (mkTval Xv (shape Xt)) (mkTval yv (shape yt)) (batch_size p)
     <> [] ->
   exists v, given_outcome fuel n alpha p Xt yt x0t Xv yv zs = Ok v).
Proof.
  intros Hres. unfold given_outcome. rewrite Hres. split.
  - by rewrite pure_loop_zero.
  - intros Hn Hb.
    destruct (pure_loop_returns n alpha [numel (shape x0t)] (1 # 20)
                (momentum p) (normalization p) _ Hb fuel (0, zs, []))
      as ([[c xv] buf] & ->); [cbn [fst]; lia |].
    by eexists.
Qed.

Lemma continue_each_problem fuel runs (w : world) p Xt yt x0t Xv yv zs :
  problem_in w p Xt yt x0t Xv yv zs ->
  problem_in (continue_each fuel runs w) p Xt yt x0t Xv yv zs.
Proof.
  revert w. induction runs as [| [n alpha] rest IH]; intros w P;
    cbn [continue_each]; [exact P |].
  apply IH. by apply given_spec.
Qed.

Lemma after_setup_problem (w : world) X y lmbd :
  exists Xt yt x0t,
    problem_in (after_setup w X y lmbd) (params (self w)) Xt yt x0t
               (X_values X)
               (map (fun v => bool_to_float (gt_zero v)) (y_values y))
               (repeat 0%Q (snd (X_shape X))).
Proof.
  destruct (set_objective_spec w X y lmbd)
    as (_ & Hp & _ & _ & Hc & _ & (Xt & HX & _ & _ & _ & HXv) &
        (yt & Hy & _ & _ & _ & Hyv) & (x0t & Hx0 & _ & _ & _ & Hzs)).
  exists Xt, yt, x0t. by split.
Qed.

End GivenFacts.
(* ===================================================================== *)
(** ** The properties of the specification *)

(** C1. For every configuration, [skip] returns [true] with a message
    exactly when one of the six degenerate conditions holds (cuda asked for
    and not available; not stochastic with a batch size other than "full";
    stochastic with batch size "full"; stochastic with line search; not
    stochastic with a normalization other than "none"; not stochastic with
    a momentum other than zero), and [(false, None)] otherwise. *)
Theorem skip_iff_degenerate `{Extern} (s : Solver) X y lmbd :
  ((exists msg, skip s X y lmbd = (true, Some msg) /\ msg <> "") <->
   degenerate (params s)) /\
  (skip s X y lmbd = (false, None) <-> ~ degenerate (params s)).
Proof.
  pose proof (skip_flag s X y lmbd) as Hflag.
  pose proof (skip_reason s X y lmbd) as Hreason.
  rewrite degenerate_reflect.
  destruct (skip s X y lmbd) as [flag reason]; cbn [fst snd] in *.
  destruct Hreason as [[Hf Hr] | [Hf (msg & Hr & Hmsg)]];
    subst reason; rewrite <- Hflag, Hf.
  - split; split.
    + intros (msg & [=] & _).
    + discriminate.
    + intros _ [=].
    + reflexivity.
  - split; split.
    + reflexivity.
    + intros _. by exists msg.
    + discriminate.
    + intros Hn. by destruct Hn.
Qed.

(** C9. The answer of [skip] depends on the solver's parameters (and on
    whether cuda is available) only: two calls on solvers with the same
    parameters return the same pair, whatever the problem data [X], [y],
    the regularization [lmbd] and the other attributes of the solver. *)
Theorem skip_ignores_problem `{Extern} (s1 s2 : Solver) X1 y1 lmbd1 X2 y2 lmbd2 :
  params s1 = params s2 ->
  skip s1 X1 y1 lmbd1 = skip s2 X2 y2 lmbd2.
Proof.
  intros Hp. unfold skip. rewrite Hp. reflexivity.
Qed.

Lemma skip_ignores_problem_witness :
  skip (H := reference false)
       (new_solver (example_params "pgd" true (BatchInt 1) cpu))
       (example_X cpu float64) example_y 1%Q =
  skip (H := reference false)
       (self example_world)
       (mkDesign [] (0, 7) float32 cuda) (mkLabels [5%Q] float16 cuda)
       (7 # 3)%Q.
Proof.
  apply (skip_ignores_problem (H := reference false)).
  reflexivity.
Defined.

(** C4. After setup, [run] with budget 0 calls no optimizer (the trace of
    optimizer calls is as it was), and the result fetched next is the zero
    vector of length [n_features]. *)
Theorem run_zero_result `{Extern} fuel (w : world) X y lmbd :
  fst (run fuel 0 (after_setup w X y lmbd)) = Ok tt /\
  trace (snd (run fuel 0 (after_setup w X y lmbd))) = trace w /\
  fst (get_result (snd (run fuel 0 (after_setup w X y lmbd)))) =
    Ok (repeat 0%Q (snd (X_shape X))) /\
  length (repeat 0%Q (snd (X_shape X))) = snd (X_shape X).
Proof.
  destruct (after_setup_ready w X y lmbd) as (x0t & R & _).
  destruct (set_objective_spec w X y lmbd) as (_ & _ & Htr & _).
  rewrite (run_zero fuel _ _ (ready_x0 _ _ _ R)). cbn [fst snd trace].
  repeat split.
  - exact Htr.
  - eapply get_result_of; [reflexivity |]. apply (ready_store _ _ _ R).
  - apply repeat_length.
Qed.

Lemma lookup_map {A B} (f : A -> B) (l : list A) (i : nat) :
  map f l !! i = option_map f (l !! i).
Proof.
  revert i. induction l as [| a l IH]; intros [| i]; cbn; auto.
Qed.

(** C6. After setup, the stored label vector has the length of the input
    labels, and at every index its entry is 1 when the input label is
    greater than zero and 0 otherwise. *)
Theorem labels_binarized (w : world) X y lmbd (i : nat) (v : Q) :
  y_values y !! i = Some v ->
  exists yt,
    self_y (self (after_setup w X y lmbd)) = Some yt /\
    length (contents (after_setup w X y lmbd) yt) = length (y_values y) /\
    ((0 < v)%Q -> contents (after_setup w X y lmbd) yt !! i = Some 1%Q) /\
    (~ (0 < v)%Q -> contents (after_setup w X y lmbd) yt !! i = Some 0%Q).
Proof.
  intros Hi.
  destruct (set_objective_spec w X y lmbd)
    as (_ & _ & _ & _ & _ & _ & _ & (yt & Hy & _ & _ & _ & Hst) & _).
  exists yt. unfold contents. rewrite Hst. cbn [default from_option id].
  split; [exact Hy |]. split; [apply length_map |].
  rewrite lookup_map, Hi. cbn [option_map].
  unfold gt_zero.
  destruct (Qle_bool v 0) eqn:Ele; cbn [negb bool_to_float].
  - apply Qle_bool_iff in Ele. split; [| reflexivity].
    intros Hpos. exfalso. exact (Qlt_not_le _ _ Hpos Ele).
  - split; [reflexivity |].
    intros Hnpos. exfalso. apply Hnpos. apply Qnot_le_lt.
    intros Hle. apply Qle_bool_iff in Hle. congruence.
Qed.

Lemma labels_binarized_witness :
  exists yt,
    self_y (self example_world) = Some yt /\
    length (contents example_world yt) = length (y_values example_y) /\
    ((0 < 1)%Q -> contents example_world yt !! 1 = Some 1%Q) /\
    (~ (0 < 1)%Q -> contents example_world yt !! 1 = Some 0%Q).
Proof.
  apply (labels_binarized
           (fresh_world (example_params "pgd" true (BatchInt 1) cpu))
           (example_X cpu float64) example_y 1%Q 1 1%Q).
  reflexivity.
Defined.

(** C10. After setup, the stored label vector is a float64 tensor,
    whatever the dtypes of the input labels and of the design matrix; the
    initial point has the dtype of the design matrix, so that with a
    float32 design matrix the two dtypes differ. *)
Theorem labels_are_float64 (w : world) X y lmbd :
  exists yt x0t,
    self_y (self (after_setup w X y lmbd)) = Some yt /\
    self_x0 (self (after_setup w X y lmbd)) = Some x0t /\
    dtype yt = float64 /\
    dtype x0t = X_dtype X /\
    (X_dtype X = float32 -> dtype yt <> dtype x0t).
Proof.
  destruct (set_objective_spec w X y lmbd)
    as (_ & _ & _ & _ & _ & _ & _ & (yt & Hy & Hdy & _) &
        (x0t & Hx0 & Hdx & _)).
  exists yt, x0t. repeat split; try assumption.
  intros H32. rewrite Hdy, Hdx, H32. discriminate.
Qed.

(** C7. After setup and for a positive budget: when the solver's name is
    not "pgd", the full-batch path raises [NotImplementedError]; so does
    the stochastic path, and [run] when it takes that path, for inputs and
    a batch size with which the dataset, the loader and the optimization
    variable can be built (otherwise torch raises before the test of the
    name); no path assigns an attribute, so no result is produced, and a
    result fetched after the run is never reached.  When the name is
    "pgd", neither path raises [NotImplementedError]. *)
Theorem unsupported_solver_raises `{Extern} fuel n (w : world) X y lmbd :
  0 < n ->
  (solver (params (self w)) <> "pgd" ->
   fst (run_full_batch n (after_setup w X y lmbd))
     = Raise NotImplementedError /\
   (stochastic_inputs_ok (params (self w)) X y ->
    fst (run_stochastic fuel n (after_setup w X y lmbd))
      = Raise NotImplementedError) /\
   (stochastic (params (self w)) = false \/
    stochastic_inputs_ok (params (self w)) X y ->
    fst (run fuel n (after_setup w X y lmbd)) = Raise NotImplementedError /\
    fst (run_then_get_result fuel n (after_setup w X y lmbd))
      = Raise NotImplementedError) /\
   (exists e, fst (run fuel n (after_setup w X y lmbd)) = Raise e) /\
   self (snd (run_stochastic fuel n (after_setup w X y lmbd)))
     = self (after_setup w X y lmbd) /\
   self (snd (run_full_batch n (after_setup w X y lmbd)))
     = self (after_setup w X y lmbd) /\
   self (snd (run fuel n (after_setup w X y lmbd)))
     = self (after_setup w X y lmbd)) /\
  (solver (params (self w)) = "pgd" ->
   fst (run_stochastic fuel n (after_setup w X y lmbd))
     <> Raise NotImplementedError /\
   fst (run_full_batch n (after_setup w X y lmbd))
     <> Raise NotImplementedError).
Proof.
  intros Hn. destruct n as [| n]; [lia |].
  destruct (after_setup_ready w X y lmbd) as (x0t & R & _).
  destruct (set_objective_spec w X y lmbd) as (_ & Hp & _).
  destruct (run_stochastic_stops fuel (S n) (after_setup w X y lmbd))
    as (more & tr & Hs & _).
  destruct (run_full_batch_stops n (after_setup w X y lmbd)) as (tr' & Hf & _).
  destruct (run_stops fuel n (after_setup w X y lmbd)) as (Hr & Hrs & _).
  pose proof (run_then_get_result_of fuel (S n) _ _ _ R) as Hg.
  pose proof (after_setup_full_batch_exception w X y lmbd) as Efb.
  rewrite Hs, Hf, Hr, Hg, Hrs. cbn [fst snd self]. rewrite Efb.
  unfold run_exn. rewrite Hp, Efb. unfold run_exception.
  split; intros Hname.
  - apply String.eqb_neq in Hname. rewrite Hname.
    split; [reflexivity |]. split; [| split; [| split; [by eexists | by repeat split]]].
    + intros Hok. rewrite (after_setup_stochastic_exception w X y lmbd Hok).
      unfold run_exception. by rewrite Hname.
    + intros [Hst | Hok].
      * rewrite Hst. by split.
      * rewrite (after_setup_stochastic_exception w X y lmbd Hok).
        unfold run_exception. rewrite Hname.
        by destruct (stochastic (params (self w))).
  - assert (solver (params (self (after_setup w X y lmbd))) = "pgd") as Hname'
      by (by rewrite Hp).
    destruct (pgd_not_NotImplementedError _ Hname') as [N1 N2].
    rewrite Efb in N2. unfold run_exception in N2.
    split; congruence.
Qed.

Lemma unsupported_solver_raises_witness :
  fst (run_stochastic (H := reference false) 1 1 sgd_example_world)
    = Raise NotImplementedError /\
  fst (run_full_batch (H := reference false) 1 sgd_example_world)
    = Raise NotImplementedError.
Proof.
  destruct (unsupported_solver_raises (H := reference false) 1 1
              (fresh_world (example_params "sgd" true (BatchInt 1) cpu))
              (example_X cpu float64) example_y 1%Q (le_n 1))
    as [Hother _].
  destruct Hother as (Hf & Hs & _); [discriminate |].
  split; [| exact Hf].
  apply Hs. split; [reflexivity |]. split; [by exists 0 | reflexivity].
Defined.

(** C8. After setup and any sequence of [run] calls, [x0] is the same
    tensor and still holds zeros, and a run with budget [n] followed by
    [get_result] has the outcome it has when no run came before.

    The runs with a positive budget all stop before their loop (see C3
    and C7), so the same is shown of the stochastic run with the value of
    [alpha] supplied, which goes through lines 72 to 84 and 91 to 103:
    after any sequence of such runs, [x0] is the same tensor and still
    holds zeros, and the run with budget [n] followed by [get_result] has
    the outcome it has when no run came before.  When the preparation of
    a run goes through, its optimization variable is a storage that did
    not exist, other than that of [x0], holding zeros, and it is the
    parameter of the optimizer; with the budget 0 the run returns the
    zero vector, whatever the earlier runs returned; and with a loader
    that has a batch and fuel for the budget, the run returns a result. *)
Theorem x0_fixed_across_runs `{Extern} fuel budgets n (w : world) X y lmbd :
  exists x0t,
    self_x0 (self (after_setup w X y lmbd)) = Some x0t /\
    self_x0 (self (run_each fuel budgets (after_setup w X y lmbd)))
      = Some x0t /\
    contents (run_each fuel budgets (after_setup w X y lmbd)) x0t
      = repeat 0%Q (snd (X_shape X)) /\
    fst (run_then_get_result fuel n
           (run_each fuel budgets (after_setup w X y lmbd)))
      = fst (run_then_get_result fuel n (after_setup w X y lmbd)) /\
    forall (runs : list (nat * Q)) (alpha : Q),
      self_x0 (self (continue_each fuel runs (after_setup w X y lmbd)))
        = Some x0t /\
      contents (continue_each fuel runs (after_setup w X y lmbd)) x0t
        = repeat 0%Q (snd (X_shape X)) /\
      fst (given_then_get_result fuel n alpha
             (continue_each fuel runs (after_setup w X y lmbd)))
        = fst (given_then_get_result fuel n alpha (after_setup w X y lmbd)) /\
      forall loader x o,
        fst (stochastic_prepare
               (continue_each fuel runs (after_setup w X y lmbd)))
          = Ok (loader, x, o) ->
        length (heap (continue_each fuel runs (after_setup w X y lmbd)))
          <= storage x /\
        storage x <> storage x0t /\
        opt_param o = x /\
        contents (snd (stochastic_prepare
                         (continue_each fuel runs (after_setup w X y lmbd))))
                 x
          = repeat 0%Q (snd (X_shape X)) /\
        fst (given_then_get_result fuel 0 alpha
               (continue_each fuel runs (after_setup w X y lmbd)))
          = Ok (repeat 0%Q (snd (X_shape X))) /\
        (n <= fuel ->
         dataset_batches (continue_each fuel runs (after_setup w X y lmbd))
                         (fst loader) (snd loader) <> [] ->
         exists v,
           fst (given_then_get_result fuel n alpha
                  (continue_each fuel runs (after_setup w X y lmbd)))
             = Ok v).
Proof.
  destruct (after_setup_problem w X y lmbd) as (Xt & yt & x0t & P).
  assert (ready (after_setup w X y lmbd) x0t (repeat 0%Q (snd (X_shape X))))
    as R.
  { destruct (after_setup_ready w X y lmbd) as (x0t' & R & _).
    assert (x0t' = x0t) as ->
      by (pose proof (ready_x0 _ _ _ R); pose proof (pi_x0 _ _ _ _ _ _ _ _ P);
          congruence).
    exact R. }
  pose proof (run_each_extends fuel budgets _ _ _ R) as E.
  pose proof (ready_extends _ _ _ _ R E) as R'.
  exists x0t. split; [apply (ready_x0 _ _ _ R) |].
  split; [apply (ready_x0 _ _ _ R') |].
  split; [unfold contents; by rewrite (ready_store _ _ _ R') |].
  split.
  { rewrite (run_then_get_result_of fuel n _ _ _ R).
    rewrite (run_then_get_result_of fuel n _ _ _ R').
    by rewrite (run_exn_extends _ _ E). }
  intros runs alpha.
  pose proof (continue_each_problem fuel runs _ _ _ _ _ _ _ _ P) as P'.
  split; [apply (pi_x0 _ _ _ _ _ _ _ _ P') |].
  split; [unfold contents; by rewrite (pi_zs _ _ _ _ _ _ _ _ P') |].
  split.
  { destruct (given_spec fuel n alpha _ _ _ _ _ _ _ _ P) as [-> _].
    destruct (given_spec fuel n alpha _ _ _ _ _ _ _ _ P') as [-> _].
    reflexivity. }
  intros loader x o Hok.
  pose proof (prepare_spec (continue_each fuel runs (after_setup w X y lmbd)))
    as Hprep.
  pose proof (prepare_result_problem _ _ _ _ _ _ _ _ P') as Hpr.
  destruct (prepare_result (self _)) as [e |].
  - destruct Hprep as (more & Hprep). rewrite Hprep in Hok. discriminate.
  - destruct Hprep as (Xt' & yt' & x0t' & HX' & Hy' & Hx0' & Hprep).
    assert (Xt' = Xt) as ->
      by (pose proof (pi_X _ _ _ _ _ _ _ _ P'); congruence).
    assert (yt' = yt) as ->
      by (pose proof (pi_y _ _ _ _ _ _ _ _ P'); congruence).
    assert (x0t' = x0t) as ->
      by (pose proof (pi_x0 _ _ _ _ _ _ _ _ P'); congruence).
    rewrite Hprep in Hok |- *. cbn [fst snd] in Hok |- *.
    injection Hok as <- <- <-. cbn [storage opt_param fst snd].
    pose proof (lookup_lt_Some _ _ _ (pi_zs _ _ _ _ _ _ _ _ P')) as Hlt.
    destruct (given_outcome_returns fuel n alpha _ Xt yt x0t (X_values X)
                (map (fun v => bool_to_float (gt_zero v)) (y_values y))
                (repeat 0%Q (snd (X_shape X))) (eq_sym Hpr)) as [Hzero Hret].
    split; [lia |]. split; [lia |]. split; [reflexivity |]. split.
    { unfold contents. cbn [heap storage]. rewrite lookup_last_alloc.
      cbn [default from_option id]. by rewrite (pi_zs _ _ _ _ _ _ _ _ P'). }
    split.
    { destruct (given_spec fuel 0 alpha _ _ _ _ _ _ _ _ P') as [-> _].
      exact Hzero. }
    intros Hn Hb.
    destruct (given_spec fuel n alpha _ _ _ _ _ _ _ _ P') as [-> _].
    apply Hret; [exact Hn |].
    unfold dataset_batches, contents in Hb. cbn [fst snd] in Hb.
    rewrite (pi_Xv _ _ _ _ _ _ _ _ P'), (pi_yv _ _ _ _ _ _ _ _ P'),
      (pi_params _ _ _ _ _ _ _ _ P') in Hb.
    exact Hb.
Qed.

(** On the example, with [alpha] supplied and a budget of 3 steps over a
    loader of 2 batches, the run makes 4 steps of size 1/20 against a
    gradient of ones and returns the entries -1/5; it returns them as well
    after two earlier runs, with other budgets and other values of
    [alpha], that left their own results. *)
Example given_runs_example :
  fst (given_then_get_result (H := reference false) 5 3 example_alpha
         example_world)
    = Ok [(-32000 # 160000)%Q; (-32000 # 160000)%Q] /\
  fst (given_then_get_result (H := reference false) 5 3 example_alpha
         (continue_each (H := reference false) 5
            [(1, (1 # 2)%Q); (4, (1 # 3)%Q)] example_world))
    = Ok [(-32000 # 160000)%Q; (-32000 # 160000)%Q] /\
  fst (stochastic_prepare example_world)
    = Ok (example_dataset, BatchInt 1, example_x, example_optimizer).
Proof. repeat split; vm_compute; reflexivity. Qed.

(** C3. The loss of a step is never computed: after setup, [logloss]
    raises [NameError] on [X] at the line that computes [alpha], and with
    the solver "pgd" the full-batch path raises it in the first evaluation
    of [logloss], and the stochastic path raises it before its first step,
    for inputs and a batch size with which its dataset, loader and
    variable can be built; whatever they are, it makes no step. *)
Theorem loss_line_raises_NameError `{Extern} fuel n (w : world) X y lmbd
    (x : tval) :
  fst (logloss x (after_setup w X y lmbd)) = Raise (NameError "X") /\
  (solver (params (self w)) = "pgd" ->
   (stochastic_inputs_ok (params (self w)) X y ->
    fst (run_stochastic fuel n (after_setup w X y lmbd))
      = Raise (NameError "X")) /\
   count_steps (trace (snd (run_stochastic fuel n (after_setup w X y lmbd))))
     = count_steps (trace w) /\
   fst (run_full_batch (S n) (after_setup w X y lmbd))
     = Raise (NameError "X")).
Proof.
  destruct (set_objective_spec w X y lmbd) as (_ & Hp & Htr & Hl & _).
  split.
  - by rewrite (logloss_raises x _ _ Hl).
  - intros Hname. apply String.eqb_eq in Hname.
    destruct (run_stochastic_stops fuel n (after_setup w X y lmbd))
      as (more & tr & -> & Ht).
    destruct (run_full_batch_stops n (after_setup w X y lmbd))
      as (tr' & -> & _).
    cbn [fst snd trace].
    rewrite (after_setup_full_batch_exception w X y lmbd).
    unfold run_exception. rewrite Hname.
    split; [| split; [| reflexivity]].
    + intros Hok. rewrite (after_setup_stochastic_exception w X y lmbd Hok).
      unfold run_exception. by rewrite Hname.
    + rewrite count_steps_app, Htr. lia.
Qed.

(** The initial point is on the device of the matrix that was passed in,
    the stored matrix on the device of the solver. *)
Lemma x0_device (w : world) X y lmbd :
  exists Xt x0t,
    self_X (self (after_setup w X y lmbd)) = Some Xt /\
    self_x0 (self (after_setup w X y lmbd)) = Some x0t /\
    contents (after_setup w X y lmbd) x0t = repeat 0%Q (snd (X_shape X)) /\
    dtype x0t = dtype Xt /\
    dev Xt = device (params (self w)) /\
    dev x0t = X_device X.
Proof.
  destruct (set_objective_spec w X y lmbd)
    as (_ & _ & _ & _ & _ & _ & (Xt & HX & HdX & HvX & _) & _ &
        (x0t & Hx0 & Hdx & Hvx & _ & Hst)).
  exists Xt, x0t. unfold contents. rewrite Hst.
  repeat split; try assumption. congruence.
Qed.

(** C5. A counterexample to the device part: for a solver on cuda (which
    is available, so [skip] lets the configuration through) and a design
    matrix given on the host, the initial point is a zero vector of the
    matrix's dtype, but it is on the host while the stored matrix is on
    cuda. *)
Theorem x0_on_host_matrix_on_cuda :
  skip (H := reference true) (self cuda_example_world)
       (example_X cpu float64) example_y 1%Q = (false, None) /\
  exists Xt x0t,
    self_X (self cuda_example_world) = Some Xt /\
    self_x0 (self cuda_example_world) = Some x0t /\
    contents cuda_example_world x0t = [0%Q; 0%Q] /\
    dtype x0t = dtype Xt /\
    dev Xt = cuda /\
    dev x0t = cpu.
Proof.
  split; [reflexivity |].
  destruct (x0_device
              (fresh_world (example_params "pgd" false (BatchStr "full") cuda))
              (example_X cpu float64) example_y 1%Q)
    as (Xt & x0t & HX & Hx0 & Hz & Hdt & HdX & Hdx).
  exists Xt, x0t. repeat split; assumption.
Qed.

Lemma whole_passes_bounds (b n : nat) :
  0 < b ->
  n <= b * ((n + b - 1) / b) < n + b.
Proof.
  intros Hb.
  pose proof (Nat.div_mod_eq (n + b - 1) b) as Hdm.
  pose proof (Nat.mod_upper_bound (n + b - 1) b) as Hr.
  lia.
Qed.

(** C2, as the code has it.  The loop of the stochastic path tests the
    budget between passes only: entered with a loader of [b >= 1] batches,
    it makes one optimizer step per batch and stops after the first pass
    that brings the counter to [n_iter] or beyond, that is after
    [b * ceil(n_iter / b)] steps, at least [n_iter] and less than
    [n_iter + b]; as many passes as the budget are always enough. *)
Theorem optimization_loop_whole_passes `{Extern} fuel n_iter dataset bs x
    alpha o (w : world) b :
  is_Some (self_criterion (self w)) ->
  storage (opt_param o) <> storage (fst dataset) ->
  storage (opt_param o) <> storage (snd dataset) ->
  length (dataset_batches w dataset bs) = b ->
  0 < b ->
  n_iter <= fuel ->
  exists c o' w',
    optimization_loop fuel n_iter dataset bs x alpha (0, o) w
      = (Ok (c, o'), w') /\
    c = b * ((n_iter + b - 1) / b) /\
    n_iter <= c < n_iter + b /\
    trace w' = trace w ++ repeat PGD_step_called c /\
    count_steps (trace w') = count_steps (trace w) + c.
Proof.
  intros [cr Hc] HX Hy Hlen Hb Hfuel.
  destruct (optimization_loop_spec n_iter dataset bs x alpha b Hb
              fuel 0 o w cr Hc HX Hy Hlen) as (o' & h' & E); [lia |].
  rewrite Nat.sub_0_r, Nat.add_0_l in E.
  eexists _, o', _. split; [exact E |].
  split; [reflexivity |].
  split; [by apply whole_passes_bounds |].
  cbn [trace]. split; [reflexivity |].
  by rewrite count_steps_app, count_steps_repeat.
Qed.

Lemma optimization_loop_whole_passes_witness :
  exists c o' w',
    example_loop_result = (Ok (c, o'), w') /\
    c = 2 * ((1 + 2 - 1) / 2) /\
    1 <= c < 1 + 2 /\
    trace w' = trace example_loop_world ++ repeat PGD_step_called c /\
    count_steps (trace w') = count_steps (trace example_loop_world) + c.
Proof.
  apply (optimization_loop_whole_passes (H := reference false) 1 1
           example_dataset (BatchInt 1) example_x example_alpha
           example_optimizer example_loop_world 2).
  - exists BCEWithLogitsLoss_obj. reflexivity.
  - discriminate.
  - discriminate.
  - reflexivity.
  - apply le_S, le_n.
  - apply le_n.
Defined.

(** The example state is the one the code builds: the dataset holds the
    stored tensors, and [x] is what [run_stochastic] makes of the clone of
    [x0], which is the storage allocated last. *)
Example example_loop_state :
  self_X (self example_world) = Some (fst example_dataset) /\
  self_y (self example_world) = Some (snd example_dataset) /\
  self (example_loop_world) = self example_world /\
  (exists x0t,
     self_x0 (self example_world) = Some x0t /\
     example_x =
       requires_grad_
         (flatten (detach (mkTensor (length (heap example_world)) (shape x0t)
                                    (dtype x0t) (dev x0t) (requires_grad x0t))))
         true) /\
  contents example_loop_world example_x = [0%Q; 0%Q] /\
  trace example_loop_world = [PGD_created].
Proof.
  repeat split. eexists. split; reflexivity.
Qed.

(** C2, as it is stated, fails.  On the example (two samples, batches of
    one sample, budget 1) the loop makes two optimizer steps, not one; and
    [run_stochastic] itself stops on the name [X] before the loop, having
    made none. *)
Lemma stochastic_steps_counterexample :
  (exists o, fst example_loop_result = Ok (2, o)) /\
  count_steps (trace (snd example_loop_result))
    = count_steps (trace example_loop_world) + 2 /\
  fst (run_stochastic (H := reference false) 1 1 example_world)
    = Raise (NameError "X") /\
  count_steps (trace (snd (run_stochastic (H := reference false) 1 1
                             example_world))) = 0.
Proof.
  split; [eexists; reflexivity |].
  repeat split; reflexivity.
Qed.

(* ===================================================================== *)
(** ** Further properties of the methods *)

(** *** Calls out of order *)

(** X1. On a solver whose problem was never set up, whatever the tensors
    and the optimizer calls of the process, [run] raises [AttributeError]:
    on [x0] for the budget 0 and for the full-batch path, on [X] for the
    stochastic path.  The solver, the tensors and the optimizer calls are
    as before; with a positive budget the filter that ignores
    [RuntimeWarning] has been put in front of the filters of the process,
    and with the budget 0 the filters are as before. *)
Theorem run_before_set_objective `{Extern} fuel n (p : Params)
    (h : list (list Q)) (t : list event) (fs : list warning_filter) :
  run fuel n (mkWorld (new_solver p) h t fs) =
    (Raise (AttributeError
              (if (n =? 0) || negb (stochastic p) then "x0" else "X")),
     mkWorld (new_solver p) h t
             (if n =? 0 then fs else ignore_runtime_warnings fs)).
Proof.
  unfold run, run_stochastic, run_full_batch, stochastic_prepare,
    ignore_runtime_warnings, new_solver.
  destruct n as [| n]; cbn [Nat.eqb orb]; msimpl.
  - reflexivity.
  - destruct (stochastic p); reflexivity.
Qed.

(** X2. [get_result] before any run raises [AttributeError] on [beta]:
    on a new solver, and also after [set_objective], which assigns every
    attribute but [beta]. *)
Theorem get_result_before_run (p : Params) X y lmbd :
  fst (get_result (fresh_world p)) = Raise (AttributeError "beta") /\
  fst (get_result (after_setup (fresh_world p) X y lmbd))
    = Raise (AttributeError "beta").
Proof.
  split; [reflexivity |].
  destruct (set_objective_spec (fresh_world p) X y lmbd)
    as (_ & _ & _ & _ & _ & Hb & _).
  unfold get_result. msimpl. fold (after_setup (fresh_world p) X y lmbd).
  rewrite Hb. reflexivity.
Qed.

(** *** What a run leaves behind *)

(** X3. A run with a positive budget after a run with budget 0 raises and
    assigns no attribute, so that the result fetched next is still the one
    of the earlier run, the zero vector.  The exception is [NameError] on
    [X] for the solver "pgd" and [NotImplementedError] for another name, on
    the full-batch path, and on the stochastic path for inputs and a batch
    size with which its dataset, loader and variable can be built. *)
Theorem failed_run_keeps_result `{Extern} fuel n (w : world) X y lmbd :
  (exists e,
     fst (run fuel (S n) (snd (run fuel 0 (after_setup w X y lmbd))))
       = Raise e) /\
  self (snd (run fuel (S n) (snd (run fuel 0 (after_setup w X y lmbd)))))
    = self (snd (run fuel 0 (after_setup w X y lmbd))) /\
  fst (get_result
         (snd (run fuel (S n) (snd (run fuel 0 (after_setup w X y lmbd))))))
    = Ok (repeat 0%Q (snd (X_shape X))) /\
  (stochastic (params (self w)) = false \/
   stochastic_inputs_ok (params (self w)) X y ->
   fst (run fuel (S n) (snd (run fuel 0 (after_setup w X y lmbd))))
     = Raise (run_exception (params (self w)))).
Proof.
  destruct (after_setup_ready w X y lmbd) as (x0t & R & _).
  destruct (set_objective_spec w X y lmbd) as (_ & Hp & _).
  pose proof (run_extends fuel 0 _ _ _ R) as E0.
  pose proof (ready_extends _ _ _ _ R E0) as R0.
  destruct (run_stops fuel n (snd (run fuel 0 (after_setup w X y lmbd))))
    as (Hr & Hs & (more & Hh) & _).
  rewrite Hr, Hs, (run_exn_extends _ _ E0).
  split; [by eexists |]. split; [reflexivity |]. split.
  - eapply (get_result_of _ x0t).
    + rewrite Hs, (run_zero fuel _ _ (ready_x0 _ _ _ R)). reflexivity.
    + rewrite Hh. apply lookup_app_l_Some, (ready_store _ _ _ R0).
  - unfold run_exn. rewrite Hp, (after_setup_full_batch_exception w X y lmbd).
    intros [-> | Hok]; [reflexivity |].
    rewrite (after_setup_stochastic_exception w X y lmbd Hok).
    by destruct (stochastic (params (self w))).
Qed.

Lemma failed_run_keeps_result_witness :
  fst (run (H := reference false) 1 1
           (snd (run (H := reference false) 1 0 example_world)))
    = Raise (NameError "X").
Proof.
  destruct (failed_run_keeps_result (H := reference false) 1 0
              (fresh_world (example_params "pgd" true (BatchInt 1) cpu))
              (example_X cpu float64) example_y 1%Q)
    as (_ & _ & _ & He).
  apply He. right.
  split; [reflexivity |]. split; [by exists 0 | reflexivity].
Defined.

Lemma set_objective_heap (w : world) X y lmbd :
  exists more, heap (after_setup w X y lmbd) = heap w ++ more.
Proof.
  unfold after_setup, set_objective, tensor_to.
  destruct (X_shape X) as [ns nf]. msimpl. device_cases;
    eexists; rewrite <- ?app_assoc; reflexivity.
Qed.

(** X4. [set_objective] does not reset the result: after a run with
    budget 0 on a first problem and the setup of a second one,
    [get_result] still returns the zero vector of the first problem's
    length, until [run] is called again. *)
Theorem set_objective_keeps_old_result `{Extern} fuel (w : world)
    X1 y1 lmbd1 X2 y2 lmbd2 :
  fst (get_result
         (after_setup (snd (run fuel 0 (after_setup w X1 y1 lmbd1)))
                      X2 y2 lmbd2))
    = Ok (repeat 0%Q (snd (X_shape X1))) /\
  fst (run_then_get_result fuel 0
         (after_setup (snd (run fuel 0 (after_setup w X1 y1 lmbd1)))
                      X2 y2 lmbd2))
    = Ok (repeat 0%Q (snd (X_shape X2))).
Proof.
  destruct (after_setup_ready w X1 y1 lmbd1) as (x0t & R & _).
  pose proof (run_zero fuel _ _ (ready_x0 _ _ _ R)) as Hz.
  set (w2 := snd (run fuel 0 (after_setup w X1 y1 lmbd1))) in *.
  split.
  - destruct (set_objective_spec w2 X2 y2 lmbd2)
      as (_ & _ & _ & _ & _ & Hb & _).
    destruct (set_objective_heap w2 X2 y2 lmbd2) as (more & Hh).
    eapply (get_result_of _ x0t).
    + rewrite Hb. unfold w2. rewrite Hz. reflexivity.
    + rewrite Hh. apply lookup_app_l_Some.
      unfold w2. rewrite Hz. cbn [snd heap]. apply (ready_store _ _ _ R).
  - destruct (after_setup_ready w2 X2 y2 lmbd2) as (x0t' & R' & _).
    apply (run_then_get_result_of fuel 0 _ _ _ R').
Qed.

(** X5. After a run with budget 0, [beta] is the tensor [x0] itself and
    not a copy: a value written to the storage of [x0] is the result that
    [get_result] returns. *)
Theorem run_zero_aliases_x0 `{Extern} fuel (w : world) X y lmbd (v : list Q) :
  exists x0t,
    self_x0 (self (snd (run fuel 0 (after_setup w X y lmbd)))) = Some x0t /\
    self_beta (self (snd (run fuel 0 (after_setup w X y lmbd)))) = Some x0t /\
    fst (get_result
           (snd (store (storage x0t) v
                       (snd (run fuel 0 (after_setup w X y lmbd))))))
      = Ok v.
Proof.
  destruct (after_setup_ready w X y lmbd) as (x0t & R & _).
  exists x0t. rewrite (run_zero fuel _ _ (ready_x0 _ _ _ R)).
  cbn [snd self self_x0 self_beta]. split; [apply (ready_x0 _ _ _ R) |].
  split; [reflexivity |].
  eapply (get_result_of _ x0t); [reflexivity |].
  cbn [store snd heap]. apply list_lookup_insert_eq.
  eapply lookup_lt_Some, (ready_store _ _ _ R).
Qed.

(** X6. [get_result] assigns no attribute, calls no optimizer and keeps
    the storages that exist (it may add a host copy); called twice, it
    returns the same thing. *)
Theorem get_result_twice (w : world) :
  self (snd (get_result w)) = self w /\
  trace (snd (get_result w)) = trace w /\
  (exists more, heap (snd (get_result w)) = heap w ++ more) /\
  fst (get_result (snd (get_result w))) = fst (get_result w).
Proof.
  unfold get_result, tensor_to. msimpl.
  destruct (self_beta (self w)) as [bt |] eqn:Hb; msimpl.
  - device_cases; rewrite ?Hb; msimpl; rewrite ?Edev; msimpl.
    + repeat split. exists []. by rewrite app_nil_r.
    + repeat split; [by eexists |]. f_equal.
      destruct (heap w !! storage bt) as [zs |] eqn:Hst; cbn [default from_option id].
      * rewrite (lookup_app_l_Some _ _ _ _ Hst). hsimpl. reflexivity.
      * hsimpl. apply lookup_ge_None in Hst.
        destruct (decide (storage bt = length (heap w))) as [-> | Hne].
        -- hsimpl. reflexivity.
        -- rewrite lookup_ge_None_2 by (rewrite length_app; cbn; lia).
           reflexivity.
  - rewrite ?Hb. repeat split. exists []. by rewrite app_nil_r.
Qed.

(** *** The loop of the stochastic path *)

Lemma whole_passes_exact (b n : nat) :
  0 < b ->
  b * ((n + b - 1) / b) = n <-> n mod b = 0.
Proof.
  intros Hb. pose proof (whole_passes_bounds b n Hb) as Hbd. split.
  - intros E. rewrite <- E, Nat.mul_comm. apply Nat.Div0.mod_mul.
  - intros Hm. pose proof (Nat.div_mod_eq n b) as Hn. rewrite Hm in Hn.
    assert ((n + b - 1) / b = n / b) as ->
      by (symmetry; apply (Nat.div_unique _ _ _ (b - 1)); lia).
    lia.
Qed.

(** X7. Entered with a loader of [b >= 1] batches, the loop ends with the
    counter at the budget exactly when [b] divides [n_iter]; otherwise it
    ends beyond it. *)
Theorem optimization_loop_exact_iff_divides `{Extern} fuel n_iter dataset bs
    x alpha o (w : world) b :
  is_Some (self_criterion (self w)) ->
  storage (opt_param o) <> storage (fst dataset) ->
  storage (opt_param o) <> storage (snd dataset) ->
  length (dataset_batches w dataset bs) = b ->
  0 < b ->
  n_iter <= fuel ->
  exists c o' w',
    optimization_loop fuel n_iter dataset bs x alpha (0, o) w
      = (Ok (c, o'), w') /\
    (c = n_iter <-> n_iter mod b = 0) /\
    (n_iter mod b <> 0 -> n_iter < c).
Proof.
  intros [cr Hc] HX Hy Hlen Hb Hfuel.
  destruct (optimization_loop_spec n_iter dataset bs x alpha b Hb
              fuel 0 o w cr Hc HX Hy Hlen) as (o' & h' & E); [lia |].
  rewrite Nat.sub_0_r, Nat.add_0_l in E.
  eexists _, o', _. split; [exact E |].
  pose proof (whole_passes_exact b n_iter Hb) as Hex.
  pose proof (whole_passes_bounds b n_iter Hb) as Hbd.
  split; [exact Hex |].
  intros Hm. destruct (Nat.eq_dec (b * ((n_iter + b - 1) / b)) n_iter) as [E' | Hne].
  - apply Hex in E'. contradiction.
  - lia.
Qed.

Lemma optimization_loop_exact_iff_divides_witness :
  exists c o' w',
    example_loop_result = (Ok (c, o'), w') /\
    (c = 1 <-> 1 mod 2 = 0) /\
    (1 mod 2 <> 0 -> 1 < c).
Proof.
  apply (optimization_loop_exact_iff_divides (H := reference false) 1 1
           example_dataset (BatchInt 1) example_x example_alpha
           example_optimizer example_loop_world 2).
  - exists BCEWithLogitsLoss_obj. reflexivity.
  - discriminate.
  - discriminate.
  - reflexivity.
  - apply le_S, le_n.
  - apply le_n.
Defined.

(** X8. Whatever the budget, the bound on the passes and the outcome, the
    loop of the stochastic path assigns no attribute of the solver and
    writes no storage other than that of the optimizer's parameter: the
    dataset and [x0] are as they were, and no storage is added. *)
Theorem optimization_loop_frame `{Extern} fuel n_iter dataset bs x alpha c o
    (w : world) :
  self (snd (optimization_loop fuel n_iter dataset bs x alpha (c, o) w))
    = self w /\
  length (heap (snd (optimization_loop fuel n_iter dataset bs x alpha
                                       (c, o) w)))
    = length (heap w) /\
  forall l, l <> storage (opt_param o) ->
    heap (snd (optimization_loop fuel n_iter dataset bs x alpha (c, o) w))
      !! l = heap w !! l.
Proof.
  enough (frame (storage (opt_param o)) w
            (snd (optimization_loop fuel n_iter dataset bs x alpha (c, o) w)))
    as [F1 F2 F3] by (repeat split; assumption).
  revert c o w. induction fuel as [| fuel IH]; intros c o w;
    cbn [optimization_loop fst]; destruct (c <? n_iter);
    try apply frame_refl.
  cbv [mbind M_bind]. rewrite iter_loader_spec.
  destruct (for_loader_frame x alpha (dataset_batches w dataset bs) c o w)
    as [F1 P1].
  destruct (for_loader x alpha (dataset_batches w dataset bs) (c, o) w)
    as [[[c1 o1] | e |] w1]; cbn [fst snd] in *; try assumption.
  specialize (P1 c1 o1 eq_refl).
  specialize (IH c1 o1 w1). rewrite P1 in IH.
  eapply frame_trans; eassumption.
Qed.

(** X9. An empty loader never moves the counter: with a budget that is
    not yet reached the loop has no end, so that every bound on the
    number of passes is used up, with the world as it was. *)
Theorem empty_loader_never_returns `{Extern} fuel n_iter dataset bs x alpha
    c o (w : world) :
  c < n_iter ->
  dataset_batches w dataset bs = [] ->
  optimization_loop fuel n_iter dataset bs x alpha (c, o) w = (OutOfFuel, w)
  /\ forall fuel', fst (optimization_loop fuel' n_iter dataset bs x alpha
                                           (c, o) w) = OutOfFuel.
Proof.
  intros Hc Hnil. split.
  - by apply optimization_loop_empty_loader.
  - intros fuel'.
    by rewrite (optimization_loop_empty_loader fuel' _ _ _ _ _ _ _ _ Hc Hnil).
Qed.

Lemma empty_loader_never_returns_witness :
  optimization_loop (H := reference false) 7 3 empty_dataset (BatchInt 1)
    example_x example_alpha (0, example_optimizer) empty_world
    = (OutOfFuel, empty_world)
  /\ forall fuel', fst (optimization_loop (H := reference false) fuel' 3
                          empty_dataset (BatchInt 1) example_x example_alpha
                          (0, example_optimizer) empty_world) = OutOfFuel.
Proof.
  apply (empty_loader_never_returns (H := reference false)).
  - apply le_S, le_S, le_n.
  - reflexivity.
Defined.

(** *** The skip-check and the grid *)

(** X10. [skip] never looks at the solver's name: two solvers that agree
    on the six other parameters get the same answer, so a name that the
    runs do not support is not skipped for it. *)
Theorem skip_ignores_solver_name `{Extern} (s1 s2 : Solver)
    X1 y1 lmbd1 X2 y2 lmbd2 :
  line_search (params s1) = line_search (params s2) ->
  stochastic (params s1) = stochastic (params s2) ->
  batch_size (params s1) = batch_size (params s2) ->
  normalization (params s1) = normalization (params s2) ->
  momentum (params s1) = momentum (params s2) ->
  device (params s1) = device (params s2) ->
  skip s1 X1 y1 lmbd1 = skip s2 X2 y2 lmbd2.
Proof.
  intros Hls Hst Hbs Hnm Hmo Hdv. unfold skip. cbv zeta.
  rewrite Hls, Hst, Hbs, Hnm, Hmo, Hdv. reflexivity.
Qed.

Lemma skip_ignores_solver_name_witness :
  skip (H := reference false)
       (new_solver (example_params "pgd" true (BatchInt 1) cpu))
       (example_X cpu float64) example_y 1%Q =
  skip (H := reference false)
       (new_solver (example_params "sgd" true (BatchInt 1) cpu))
       (example_X cpu float64) example_y 1%Q.
Proof.
  apply (skip_ignores_solver_name (H := reference false)); reflexivity.
Defined.

(** X11. Where cuda is available, [skip] does not depend on the device:
    two solvers that agree on the line search, the stochastic flag, the
    batch size, the normalization and the momentum get the same answer. *)
Theorem skip_ignores_device_with_cuda `{Extern} (s1 s2 : Solver)
    X1 y1 lmbd1 X2 y2 lmbd2 :
  cuda_is_available = true ->
  line_search (params s1) = line_search (params s2) ->
  stochastic (params s1) = stochastic (params s2) ->
  batch_size (params s1) = batch_size (params s2) ->
  normalization (params s1) = normalization (params s2) ->
  momentum (params s1) = momentum (params s2) ->
  skip s1 X1 y1 lmbd1 = skip s2 X2 y2 lmbd2.
Proof.
  intros Hc Hls Hst Hbs Hnm Hmo. unfold skip. cbv zeta.
  rewrite Hc, Hls, Hst, Hbs, Hnm, Hmo. cbn [negb].
  rewrite !andb_false_r. reflexivity.
Qed.

Lemma skip_ignores_device_with_cuda_witness :
  skip (H := reference true)
       (new_solver (example_params "pgd" true (BatchInt 1) cpu))
       (example_X cpu float64) example_y 1%Q =
  skip (H := reference true)
       (new_solver (example_params "pgd" true (BatchInt 1) cuda))
       (example_X cpu float64) example_y 1%Q.
Proof.
  apply (skip_ignores_device_with_cuda (H := reference true)); reflexivity.
Defined.

(** [skip] uses nothing of the environment but the availability of
    cuda. *)
Lemma skip_environment `{Extern} (s : Solver) X y lmbd :
  skip s X y lmbd = skip (H := reference cuda_is_available) s X y lmbd.
Proof. reflexivity. Qed.

(** X12. The class lists 256 configurations; [skip] lets 26 of them
    through on a machine without cuda and 52 on a machine with it (for
    each device that can be used: 24 stochastic ones, with an integer
    batch size and no line search, and 2 full-batch ones, with batch size
    "full", normalization "none" and momentum 0). *)
Theorem grid_not_skipped `{Extern} X y lmbd :
  length parameters_grid = 256 /\
  length (not_skipped parameters_grid X y lmbd)
    = (if cuda_is_available then 52 else 26) /\
  length (List.filter stochastic (not_skipped parameters_grid X y lmbd))
    = (if cuda_is_available then 48 else 24).
Proof.
  split; [reflexivity |].
  unfold not_skipped.
  rewrite (List.filter_ext _
             (fun p => negb (fst (skip (H := reference cuda_is_available)
                                       (new_solver p) X y lmbd))))
    by (intros p; by rewrite skip_environment).
  destruct cuda_is_available; split; vm_compute; reflexivity.
Qed.

(** *** The stored problem *)

(** X13. [set_objective] stores copies: the stored matrix and labels are
    in storages that did not exist before, whether or not the data had to
    move to another device; the matrix has the values and the shape of the
    argument, and every storage that existed keeps its contents. *)
Theorem set_objective_stores_copies (w : world) X y lmbd :
  exists Xt yt,
    self_X (self (after_setup w X y lmbd)) = Some Xt /\
    self_y (self (after_setup w X y lmbd)) = Some yt /\
    contents (after_setup w X y lmbd) Xt = X_values X /\
    shape Xt = [fst (X_shape X); snd (X_shape X)] /\
    length (heap w) <= storage Xt /\
    length (heap w) <= storage yt /\
    storage Xt <> storage yt /\
    forall l, l < length (heap w) ->
      heap (after_setup w X y lmbd) !! l = heap w !! l.
Proof.
  unfold after_setup, set_objective, tensor_to.
  destruct (X_shape X) as [ns nf]. msimpl. device_cases;
    eexists _, _; (split; [reflexivity |]); (split; [reflexivity |]);
    msimpl; hsimpl; rewrite ?length_app; cbn [length];
    (repeat split; try reflexivity; try lia);
    intros l Hl; hsimpl; reflexivity.
Qed.

Lemma grid_solver_pgd (p : Params) :
  List.In p parameters_grid -> solver p = "pgd".
Proof.
  intros Hin.
  assert (forallb (fun q => String.eqb (solver q) "pgd") parameters_grid = true)
    as Hall by (vm_compute; reflexivity).
  rewrite forallb_forall in Hall. apply String.eqb_eq, Hall, Hin.
Qed.

(** Among the configurations of the class that [skip] lets through, the
    stochastic ones have a positive integer batch size. *)
Lemma not_skipped_batch_size `{Extern} (p : Params) X y lmbd :
  List.In p (not_skipped parameters_grid X y lmbd) ->
  stochastic p = true ->
  exists b, batch_size p = BatchInt (S b).
Proof.
  unfold not_skipped. intros Hin Hst.
  apply filter_In in Hin as [Hin Hsk]. rewrite skip_environment in Hsk.
  assert (forall c,
            forallb (fun q =>
                       implb (negb (fst (skip (H := reference c)
                                              (new_solver q) X y lmbd))
                              && stochastic q)
                             match batch_size q with
                             | BatchInt (S _) => true
                             | _ => false
                             end) parameters_grid = true) as Hall
    by (intros [|]; vm_compute; reflexivity).
  specialize (Hall cuda_is_available). rewrite forallb_forall in Hall.
  specialize (Hall p Hin). rewrite Hsk, Hst in Hall. cbn in Hall.
  destruct (batch_size p) as [[| b] | s]; try discriminate. by exists b.
Qed.

(** After setup with as many labels as rows, the stochastic path stops on
    [ValueError] when the batch size is not a positive integer. *)
Lemma after_setup_batch_size_exception (w : world) X y lmbd :
  fst (X_shape X) = length (y_values y) ->
  (forall b, batch_size (params (self w)) <> BatchInt (S b)) ->
  stochastic_exception (self (after_setup w X y lmbd)) = ValueError.
Proof.
  intros Hrows Hb.
  destruct (set_objective_spec w X y lmbd)
    as (_ & Hp & _ & Hl & _ & _ & (Xt & HX & _ & _ & HsX & _) &
        (yt & Hy & _ & _ & Hsy & _) & _).
  unfold stochastic_exception, prepare_result.
  rewrite HX, Hy, Hp, HsX, Hsy. cbn [lookup list_lookup].
  rewrite Hrows, Nat.eqb_refl. cbn [negb].
  destruct (batch_size (params (self w))) as [[| b] | s]; try reflexivity.
  by destruct (Hb b).
Qed.

(** X14. No configuration of the class completes a run with a positive
    budget: for every configuration of the grid, on a new solver after
    setup, [run] raises, [beta] stays unassigned, and fetching the result
    is not reached.  The exception is [NameError] on [X] for the full-batch
    configurations and, given as many labels as rows and a floating
    matrix, for every configuration that [skip] lets through; given as
    many labels as rows, it is [ValueError] for the stochastic
    configurations with the batch size "full". *)
Theorem grid_runs_raise `{Extern} fuel n (p : Params) X y lmbd :
  List.In p parameters_grid ->
  (exists e,
     fst (run fuel (S n) (after_setup (fresh_world p) X y lmbd)) = Raise e /\
     fst (run_then_get_result fuel (S n)
            (after_setup (fresh_world p) X y lmbd)) = Raise e) /\
  self_beta (self (snd (run fuel (S n)
                          (after_setup (fresh_world p) X y lmbd)))) = None /\
  (stochastic p = false ->
   fst (run fuel (S n) (after_setup (fresh_world p) X y lmbd))
     = Raise (NameError "X")) /\
  (List.In p (not_skipped parameters_grid X y lmbd) ->
   fst (X_shape X) = length (y_values y) ->
   is_floating (X_dtype X) = true ->
   fst (run fuel (S n) (after_setup (fresh_world p) X y lmbd))
     = Raise (NameError "X")) /\
  (stochastic p = true ->
   batch_size p = BatchStr "full" ->
   fst (X_shape X) = length (y_values y) ->
   fst (run fuel (S n) (after_setup (fresh_world p) X y lmbd))
     = Raise ValueError).
Proof.
  intros Hin. apply grid_solver_pgd in Hin. apply String.eqb_eq in Hin.
  destruct (after_setup_ready (fresh_world p) X y lmbd) as (x0t & R & _).
  destruct (set_objective_spec (fresh_world p) X y lmbd)
    as (_ & Hp & _ & _ & _ & Hb & _).
  destruct (run_stops fuel n (after_setup (fresh_world p) X y lmbd))
    as (Hr & Hs & _).
  pose proof (after_setup_full_batch_exception (fresh_world p) X y lmbd) as Hfb.
  rewrite (run_then_get_result_of fuel (S n) _ _ _ R), Hr, Hs, Hb.
  unfold run_exn. rewrite Hp, Hfb. unfold run_exception.
  cbn [fresh_world self new_solver params]. rewrite Hin.
  split; [by eexists |]. split; [reflexivity |].
  split; [by intros -> |]. split.
  - intros Hns Hrows Hfl.
    destruct (stochastic p) eqn:Hst; [| reflexivity].
    destruct (not_skipped_batch_size p X y lmbd Hns Hst) as (b & Hbs).
    rewrite (after_setup_stochastic_exception (fresh_world p) X y lmbd).
    + unfold run_exception. cbn [fresh_world self new_solver params].
      by rewrite Hin.
    + split; [exact Hrows |]. split; [by exists b | exact Hfl].
  - intros -> Hbs Hrows.
    rewrite (after_setup_batch_size_exception (fresh_world p) X y lmbd Hrows).
    + reflexivity.
    + intros b. cbn [fresh_world self new_solver params]. by rewrite Hbs.
Qed.

Lemma grid_runs_raise_witness :
  fst (run (H := reference false) 1 1
           (after_setup
              (fresh_world (mkParams "pgd" false true (BatchInt 32) "none"
                                     0%Q cpu))
              (example_X cpu float64) example_y 1%Q))
    = Raise (NameError "X") /\
  fst (run (H := reference false) 1 1
           (after_setup
              (fresh_world (mkParams "pgd" false true (BatchStr "full") "none"
                                     0%Q cpu))
              (example_X cpu float64) example_y 1%Q))
    = Raise ValueError.
Proof.
  split.
  - destruct (grid_runs_raise (H := reference false) 1 0
                (mkParams "pgd" false true (BatchInt 32) "none" 0%Q cpu)
                (example_X cpu float64) example_y 1%Q)
      as (_ & _ & _ & Hn & _).
    + vm_compute. tauto.
    + apply Hn; [vm_compute; tauto | reflexivity | reflexivity].
  - destruct (grid_runs_raise (H := reference false) 1 0
                (mkParams "pgd" false true (BatchStr "full") "none" 0%Q cpu)
                (example_X cpu float64) example_y 1%Q)
      as (_ & _ & _ & _ & Hv).
    + vm_compute. tauto.
    + apply Hv; reflexivity.
Defined.
